(** * NPB/KBO over-under analysis: scoring model, probability blend and
      star recommendation

    Shallow embedding of [NPBKBO.py] (console front end) and [app.py]
    (form front end).

    Conventions of the embedding.
    - A Python [float] is an exact rational ([Q]): the formulas are the
      ones of the source, with its order of operations, evaluated without
      rounding.  The statements are orderings, floors and case
      distinctions that rounding to the nearest double preserves; where
      an equation would need exact arithmetic, the binary64 evaluation
      of the source expression is given in [Double].  Python's
      two-argument [max] and [min] return their first argument unless the
      second is strictly larger (smaller), which is how [Qmax] and [Qmin]
      are defined.
    - [float(...)] at the console also reads [nan] and the infinities:
      the console functions are given twice, for lines that are read as
      numbers ([safe_input], [input_team_data]) and for lines that may be
      read as any float ([safe_input_x], [input_team_data_x]).
    - A Python object that reaches the arithmetic is a [value]: a float,
      or [None] (standing for anything arithmetic rejects with a
      [TypeError]).
    - [try: ... except Exception] is [try_except] on a state-and-error
      monad whose state holds the random generator and what was printed.
    - numpy and scipy samplers are not part of the repository: they are a
      [RandomSource], a deterministic step on an explicit generator state
      that either raises or returns [size] draws. *)

From Stdlib Require Import QArith Qminmax Qabs Qround Lqa ZArith NArith Lia.
From Stdlib Require Import String Ascii List DecimalString.
From Stdlib Require Import Floats Uint63.
Import ListNotations.

Open Scope Q_scope.

(** ** Python values and exceptions *)

Inductive exn : Type :=
  | TypeError
  | ValueError.

Inductive result (A : Type) : Type :=
  | Ok (a : A)
  | Raise (e : exn).

Arguments Ok {A} a.
Arguments Raise {A} e.

Inductive value : Type :=
  | VFloat (q : Q)
  | VNone.

(** Using a value as an operand of [+], [*], [/], [max] or a comparison
    with a float. *)
Definition as_float (v : value) : result Q :=
  match v with
  | VFloat q => Ok q
  | VNone => Raise TypeError
  end.

Definition rbind {A B : Type} (c : result A) (k : A -> result B) : result B :=
  match c with
  | Ok a => k a
  | Raise e => Raise e
  end.

Declare Scope result_scope.
Delimit Scope result_scope with result.
Notation "x <- c ;; k" := (rbind c (fun x => k))
  (at level 61, c at next level, right associativity) : result_scope.

(** ** The dictionaries built by [input_team_data] and by the form

    Both builders set every key, so a key is never missing; what a key
    holds is a [value].  The keys ['name'] and ['time_period'] are never
    read by the scoring code and are left out. *)

Record pitcher_dict : Type := mkPitcher {
  era : value;
  baa : value
}.

Record team_dict : Type := mkTeam {
  time_avg : value;
  base_avg : value;
  allow : value;
  over_rate : value;
  team_batting : value;
  team_obp : value;
  pitcher : pitcher_dict
}.

(** ** Constants *)

Definition NPB_STD_DEV : Q := 2.3.
Definition NPB_NB_R : Q := 9.0.
Definition KBO_STD_DEV : Q := 2.8.
Definition KBO_NB_R : Q := 7.5.
Definition NUM_SIMULATIONS : N := 100000%N.

(** ** The random source, the printed lines and the monad *)

Class RandomSource : Type := {
  rng_state : Type;
  (** [np.random.normal(loc, scale, size)] *)
  np_random_normal : Q -> Q -> N -> rng_state -> result (list Q) * rng_state;
  (** [scipy.stats.nbinom.rvs(n, p, size=size)] *)
  nbinom_rvs : Q -> Q -> N -> rng_state -> result (list Z) * rng_state;
  (** [np.random.poisson(lam, size)] *)
  np_random_poisson : Q -> N -> rng_state -> result (list Z) * rng_state;
  (** a sampler that returns, returns [size] draws *)
  normal_size : forall loc scale n g xs g',
    np_random_normal loc scale n g = (Ok xs, g') -> length xs = N.to_nat n;
  nbinom_size : forall r p n g xs g',
    nbinom_rvs r p n g = (Ok xs, g') -> length xs = N.to_nat n;
  poisson_size : forall lam n g xs g',
    np_random_poisson lam n g = (Ok xs, g') -> length xs = N.to_nat n
}.

(** The two [print] calls of the [except] handlers. *)
Inductive line : Type :=
  | ScoreError (e : exn)      (* 得分計算錯誤: ... *)
  | SimulationError (e : exn). (* 模擬過程錯誤: ... *)

Record world {RS : RandomSource} : Type := mkWorld {
  rng : rng_state;
  stdout : list line
}.

Section Monad.
Context {RS : RandomSource}.

Definition M (A : Type) : Type := world -> result A * world.

Definition ret {A : Type} (a : A) : M A := fun w => (Ok a, w).

Definition bind {A B : Type} (c : M A) (k : A -> M B) : M B :=
    fun w =>
      match c w with
      | (Ok a, w') => k a w'
      | (Raise e, w') => (Raise e, w')
      end.

Definition lift {A : Type} (r : result A) : M A := fun w => (r, w).

Definition try_except {A : Type} (c : M A) (handler : exn -> M A) : M A :=
    fun w =>
      match c w with
      | (Ok a, w') => (Ok a, w')
      | (Raise e, w') => handler e w'
      end.

Definition print (l : line) : M unit :=
    fun w => (Ok tt, mkWorld RS (rng w) (stdout w ++ [l])).

Definition sample {A : Type}
      (draw : rng_state -> result A * rng_state) : M A :=
    fun w =>
      let (r, g) := draw (rng w) in (r, mkWorld RS g (stdout w)).
End Monad.

Declare Scope monad_scope.
Delimit Scope monad_scope with monad.
Notation "x <- c ;; k" := (bind c (fun x => k))
  (at level 61, c at next level, right associativity) : monad_scope.
Notation "c ;;; k" := (bind c (fun _ => k))
  (at level 61, right associativity) : monad_scope.

(** ** numpy array expressions used by the models *)

(** [a + b] on two float arrays of one shape. *)
Fixpoint array_add (a b : list Q) : list Q :=
  match a, b with
  | x :: a', y :: b' => (x + y) :: array_add a' b'
  | _, _ => []
  end.

(** [a + b] on two integer arrays of one shape. *)
Fixpoint int_array_add (a b : list Z) : list Z :=
  match a, b with
  | x :: a', y :: b' => (x + y)%Z :: int_array_add a' b'
  | _, _ => []
  end.

Definition gtb (x y : Q) : bool :=
  match x ?= y with
  | Gt => true
  | _ => false
  end.

(** [a > target], a boolean mask. *)
Definition array_gt (a : list Q) (target : Q) : list bool :=
  map (fun x => gtb x target) a.

Definition int_array_gt (a : list Z) (target : Q) : list bool :=
  map (fun x => gtb (inject_Z x) target) a.

Fixpoint count_true (m : list bool) : Z :=
  match m with
  | [] => 0%Z
  | b :: m' => ((if b then 1 else 0) + count_true m')%Z
  end.

(** [np.mean(mask)]: the fraction of [True] entries.  The masks of the
    models have [NUM_SIMULATIONS] entries, never none. *)
Definition np_mean (m : list bool) : Q :=
  inject_Z (count_true m) / inject_Z (Z.of_nat (length m)).

(** ** Formatting with ["%.1f"] *)

(** Rounding a non-negative rational to the nearest integer, ties to the
    even one, as the decimal conversion of ["%.1f"] does. *)
Definition round_half_even (q : Q) : Z :=
  let n := Qnum q in
  let d := Zpos (Qden q) in
  let fl := (n / d)%Z in
  let r2 := (2 * (n mod d))%Z in
  if (r2 <? d)%Z then fl
  else if (d <? r2)%Z then (fl + 1)%Z
  else if Z.even fl then fl else (fl + 1)%Z.

Definition string_of_Z (z : Z) : string :=
  NilZero.string_of_uint (N.to_uint (Z.to_N z)).

(** ["%.1f" % q]: sign, integer part, one decimal digit. *)
Definition format_1f (q : Q) : string :=
  let tenths := round_half_even (Qabs q * 10) in
  ((match (q ?= 0)%Q with Lt => "-" | _ => "" end) ++
   string_of_Z (tenths / 10) ++ "." ++ string_of_Z (tenths mod 10))%string.

(** ** [NPBKBO.py] *)

Module NPBKBO.

  (** The nested [weighted_score(data, opp_pitcher)] of
      [calculate_scores]; [league_factor] is the variable it captures. *)
Definition weighted_score (league_factor : Q)
      (data : team_dict) (opp_pitcher : pitcher_dict) : result Q :=
    (opp_era <- as_float (era opp_pitcher) ;;
     let era_impact := (4.5 / Qmax 0.01 opp_era) * 0.7 in
     opp_baa <- as_float (baa opp_pitcher) ;;
     let baa_impact := (0.3 / Qmax 0.001 opp_baa) * 0.3 in
     let pitcher_factor := Qmin 2.0 (era_impact + baa_impact) in
     batting <- as_float (team_batting data) ;;
     let batting_impact := (batting / Qmax 0.001 0.270) * 0.5 in
     obp <- as_float (team_obp data) ;;
     let obp_impact := (obp / Qmax 0.001 0.340) * 0.5 in
     t <- as_float (time_avg data) ;;
     b <- as_float (base_avg data) ;;
     a <- as_float (allow data) ;;
     let base_score := t * 0.5 + b * 0.3 + a * 0.2 in
     over <- as_float (over_rate data) ;;
     Ok (Qmax 0.1 (base_score * league_factor *
                   (0.8 + 0.2 * over) *
                   (1.0 / Qmax 0.1 pitcher_factor) *
                   (0.6 + batting_impact + obp_impact))))%result.

  (** The body of the [try] of [calculate_scores]. *)
Definition calculate_scores_body (home away : team_dict) (league : string)
      (include_effects : bool) : result (Q * Q) :=
    let league_factor := if String.eqb league "NPB" then 0.95 else 1.05 in
    if include_effects then
      (home_score <- weighted_score league_factor home (pitcher away) ;;
       away_score <- weighted_score league_factor away (pitcher home) ;;
       Ok (home_score, away_score))%result
    else
      (ht <- as_float (time_avg home) ;;
       hb <- as_float (base_avg home) ;;
       let home_score := (ht * 0.6 + hb * 0.4) * league_factor in
       at' <- as_float (time_avg away) ;;
       ab <- as_float (base_avg away) ;;
       let away_score := (at' * 0.6 + ab * 0.4) * league_factor in
       Ok (home_score, away_score))%result.

Record ModelResult : Type := mkResult {
    mc_prob : Q;
    nb_prob : Q;
    poisson_prob : Q;
    final_prob : Q
  }.

  (** The dictionary of the [except] branch of
      [run_probability_models]. *)
Definition neutral : ModelResult := mkResult 50.0 50.0 50.0 50.0.

Section WithSource.
Context {RS : RandomSource}.

Definition calculate_scores (home away : team_dict) (league : string)
        (include_effects : bool) : M (value * value) :=
      try_except
        (scores <- lift (calculate_scores_body home away league
                           include_effects) ;;
         ret (VFloat (fst scores), VFloat (snd scores)))%monad
        (fun e => print (ScoreError e) ;;; ret (VNone, VNone))%monad.

    (** The body of the [try] of [run_probability_models]. *)
Definition run_probability_models_body (home_score away_score : value)
        (target : Q) (league : string) : M ModelResult :=
      let std_dev :=
        if String.eqb league "NPB" then NPB_STD_DEV else KBO_STD_DEV in
      let nb_r := if String.eqb league "NPB" then NPB_NB_R else KBO_NB_R in
      (hs <- lift (as_float home_score) ;;
       as_ <- lift (as_float away_score) ;;
       let home_std := std_dev * (hs / Qmax 0.1 (hs + as_)) in
       let away_std := std_dev * (as_ / Qmax 0.1 (hs + as_)) in
       n1 <- sample (np_random_normal hs home_std NUM_SIMULATIONS) ;;
       n2 <- sample (np_random_normal as_ away_std NUM_SIMULATIONS) ;;
       let mc_scores := array_add n1 n2 in
       let mc_prob := np_mean (array_gt mc_scores target) * 100 in
       let generate_nb := fun mean : Q =>
         let p := nb_r / Qmax 0.1 (nb_r + mean) in
         sample (nbinom_rvs nb_r p NUM_SIMULATIONS) in
       b1 <- generate_nb hs ;;
       b2 <- generate_nb as_ ;;
       let nb_prob :=
         np_mean (int_array_gt (int_array_add b1 b2) target) * 100 in
       p1 <- sample (np_random_poisson hs NUM_SIMULATIONS) ;;
       p2 <- sample (np_random_poisson as_ NUM_SIMULATIONS) ;;
       let poisson_prob :=
         np_mean (int_array_gt (int_array_add p1 p2) target) * 100 in
       let final_prob :=
         if String.eqb league "NPB"
         then mc_prob * 0.5 + nb_prob * 0.35 + poisson_prob * 0.15
         else mc_prob * 0.6 + nb_prob * 0.25 + poisson_prob * 0.15 in
       ret (mkResult mc_prob nb_prob poisson_prob final_prob))%monad.

Definition run_probability_models (home_score away_score : value)
        (target : Q) (league : string) : M ModelResult :=
      try_except
        (run_probability_models_body home_score away_score target league)
        (fun e => print (SimulationError e) ;;; ret neutral)%monad.

    (** The analysis steps of one round of [main]: the full model, then
        the baseline model. *)
Definition main_analysis (home away : team_dict) (league : string)
        (target : Q)
      : M ((value * value * ModelResult) * (value * value * ModelResult)) :=
      (full <- calculate_scores home away league true ;;
       full_results <-
         run_probability_models (fst full) (snd full) target league ;;
       base <- calculate_scores home away league false ;;
       base_results <-
         run_probability_models (fst base) (snd base) target league ;;
       ret ((fst full, snd full, full_results),
            (fst base, snd base, base_results)))%monad.
End WithSource.

(** *** The recommendation *)

(** The body of the [try] of [get_star_recommendation]. *)
Definition get_star_recommendation_body (prob : value)
    : result (Q * string) :=
  (p <- as_float prob ;;
   if Qle_bool 50 p then
     let strength := p - 50 in
     if Qle_bool 20 strength then
       Ok (5.0, "🔥 極強力推薦大分 (概率:" ++ format_1f p ++ "%)")%string
     else if Qle_bool 10 strength then
       Ok (4.0, "★ 強力推薦大分 (概率:" ++ format_1f p ++ "%)")%string
     else if Qle_bool 5 strength then
       Ok (3.5, "↑ 看好大分 (概率:" ++ format_1f p ++ "%)")%string
     else
       Ok (3.0, "→ 稍推大分 (概率:" ++ format_1f p ++ "%)")%string
   else
     let strength := 50 - p in
     if Qle_bool 20 strength then
       Ok (5.0, "🔥 極強力推薦小分 (概率:" ++ format_1f (100 - p) ++ "%)")%string
     else if Qle_bool 10 strength then
       Ok (4.0, "★ 強力推薦小分 (概率:" ++ format_1f (100 - p) ++ "%)")%string
     else if Qle_bool 5 strength then
       Ok (3.5, "↑ 看好小分 (概率:" ++ format_1f (100 - p) ++ "%)")%string
     else
       Ok (3.0, "→ 稍推小分 (概率:" ++ format_1f (100 - p) ++ "%)")%string
  )%result.

Definition get_star_recommendation (prob : value) : Q * string :=
  match get_star_recommendation_body prob with
  | Ok r => r
  | Raise _ => (0.0, "無法生成推薦"%string)
  end.

End NPBKBO.

(** ** [app.py] *)

Module App.

Definition weighted_score (data : team_dict) (opp_pitcher : pitcher_dict)
    (league_factor : Q) : result Q :=
  (opp_era <- as_float (era opp_pitcher) ;;
   let era_impact := (4.5 / Qmax 0.01 opp_era) * 0.7 in
   opp_baa <- as_float (baa opp_pitcher) ;;
   let baa_impact := (0.3 / Qmax 0.001 opp_baa) * 0.3 in
   let pitcher_factor := Qmin 2.0 (era_impact + baa_impact) in
   batting <- as_float (team_batting data) ;;
   let batting_impact := (batting / Qmax 0.001 0.270) * 0.5 in
   obp <- as_float (team_obp data) ;;
   let obp_impact := (obp / Qmax 0.001 0.340) * 0.5 in
   t <- as_float (time_avg data) ;;
   b <- as_float (base_avg data) ;;
   a <- as_float (allow data) ;;
   let base_score := t * 0.5 + b * 0.3 + a * 0.2 in
   over <- as_float (over_rate data) ;;
   Ok (Qmax 0.1 (base_score * league_factor *
                 (0.8 + 0.2 * over) *
                 (1.0 / Qmax 0.1 pitcher_factor) *
                 (0.6 + batting_impact + obp_impact))))%result.

Section WithSource.
Context {RS : RandomSource}.

(** [run_models] returns the tuple [(mc, nb, poisson, final)]; there is
    no [try] around it or around its call. *)
Definition run_models (hs as_ : Q) (target : Q) (league_key : string)
    : M (Q * Q * Q * Q) :=
  let std_dev :=
    if String.eqb league_key "NPB" then NPB_STD_DEV else KBO_STD_DEV in
  let nb_r := if String.eqb league_key "NPB" then NPB_NB_R else KBO_NB_R in
  let home_std := std_dev * (hs / Qmax 0.1 (hs + as_)) in
  let away_std := std_dev * (as_ / Qmax 0.1 (hs + as_)) in
  (n1 <- sample (np_random_normal hs home_std NUM_SIMULATIONS) ;;
   n2 <- sample (np_random_normal as_ away_std NUM_SIMULATIONS) ;;
   let mc := np_mean (array_gt (array_add n1 n2) target) * 100 in
   let gen_nb := fun mean : Q =>
     let p := nb_r / Qmax 0.1 (nb_r + mean) in
     sample (nbinom_rvs nb_r p NUM_SIMULATIONS) in
   b1 <- gen_nb hs ;;
   b2 <- gen_nb as_ ;;
   let nb := np_mean (int_array_gt (int_array_add b1 b2) target) * 100 in
   p1 <- sample (np_random_poisson hs NUM_SIMULATIONS) ;;
   p2 <- sample (np_random_poisson as_ NUM_SIMULATIONS) ;;
   let poisson :=
     np_mean (int_array_gt (int_array_add p1 p2) target) * 100 in
   let final :=
     if String.eqb league_key "NPB"
     then mc * 0.5 + nb * 0.35 + poisson * 0.15
     else mc * 0.6 + nb * 0.25 + poisson * 0.15 in
   ret (mc, nb, poisson, final))%monad.

(** What the button runs before it renders: the two scores, then the
    models. *)
Definition on_click (home away : team_dict) (target : Q)
    (league_key : string) : M (Q * Q * (Q * Q * Q * Q)) :=
  let league_factor := if String.eqb league_key "NPB" then 0.95 else 1.05 in
  (hs <- lift (weighted_score home (pitcher away) league_factor) ;;
   as_ <- lift (weighted_score away (pitcher home) league_factor) ;;
   models <- run_models hs as_ target league_key ;;
   ret (hs, as_, models))%monad.

End WithSource.

End App.

(** ** The data model of the specification

    A [TeamStat] is a team dictionary whose entries are all floats. *)

Record Pitcher : Type := mkPitcherStat {
  p_era : Q;
  p_baa : Q
}.

Record TeamStat : Type := mkTeamStat {
  ts_time_avg : Q;
  ts_base_avg : Q;
  ts_allow : Q;
  ts_over_rate : Q;
  ts_team_batting : Q;
  ts_team_obp : Q;
  ts_pitcher : Pitcher
}.

Definition pitcher_of (p : Pitcher) : pitcher_dict :=
  mkPitcher (VFloat (p_era p)) (VFloat (p_baa p)).

Definition dict_of (t : TeamStat) : team_dict :=
  mkTeam (VFloat (ts_time_avg t)) (VFloat (ts_base_avg t))
         (VFloat (ts_allow t)) (VFloat (ts_over_rate t))
         (VFloat (ts_team_batting t)) (VFloat (ts_team_obp t))
         (pitcher_of (ts_pitcher t)).

(** The ranges that input validation enforces: averages and era are not
    negative, rates and fractions lie in [[0,1]]. *)
Definition valid_pitcher (p : Pitcher) : Prop :=
  0 <= p_era p /\ 0 <= p_baa p <= 1.

Definition valid_team (t : TeamStat) : Prop :=
  0 <= ts_time_avg t /\ 0 <= ts_base_avg t /\ 0 <= ts_allow t /\
  0 <= ts_over_rate t <= 1 /\
  0 <= ts_team_batting t <= 1 /\
  0 <= ts_team_obp t <= 1 /\
  valid_pitcher (ts_pitcher t).

(** *** The formulas of the specification, section 4.1 *)

Definition spec_league_multiplier (league : string) : Q :=
  if String.eqb league "NPB" then 0.95 else 1.05.

Definition spec_baseline_score (league : string) (t : TeamStat) : Q :=
  (ts_time_avg t * 0.6 + ts_base_avg t * 0.4) * spec_league_multiplier league.

Definition spec_pitcher_factor (p : Pitcher) : Q :=
  Qmin 2.0 ((4.5 / Qmax (p_era p) 0.01) * 0.7 +
            (0.3 / Qmax (p_baa p) 0.001) * 0.3).

Definition spec_offense_factor (t : TeamStat) : Q :=
  0.6 + 0.5 * (ts_team_batting t / 0.270) + 0.5 * (ts_team_obp t / 0.340).

Definition spec_base_score (t : TeamStat) : Q :=
  ts_time_avg t * 0.5 + ts_base_avg t * 0.3 + ts_allow t * 0.2.

Definition spec_full_score (league : string) (t : TeamStat)
    (opposing : Pitcher) : Q :=
  Qmax 0.1 (spec_base_score t * spec_league_multiplier league *
            (0.8 + 0.2 * ts_over_rate t) *
            (1 / Qmax (spec_pitcher_factor opposing) 0.1) *
            spec_offense_factor t).

(** ** A deterministic random source

    One instance of [RandomSource], used to run the models on concrete
    inputs.  The generator state is a counter.  The draws of a call are
    the centre of the distribution moved by -1, 0, 1, -1, ... in turn,
    the first move being chosen by the counter; counts are cut at [0].
    The argument checks are those of the libraries: [np.random.normal]
    rejects a negative [scale], [np.random.poisson] rejects a negative
    [lam] and one above [POISSON_LAM_MAX], [nbinom.rvs] rejects [n <= 0]
    and [p] outside [(0, 1]]; each raises [ValueError]. *)

Fixpoint cycle3 (a b c : Z) (len : nat) : list Z :=
  match len with
  | O => []
  | S k => a :: cycle3 b c a k
  end.

Definition wobbles (g : Z) (n : N) : list Z :=
  match (g mod 3)%Z with
  | 0%Z => cycle3 (-1) 0 1 (N.to_nat n)
  | 1%Z => cycle3 0 1 (-1) (N.to_nat n)
  | _ => cycle3 1 (-1) 0 (N.to_nat n)
  end.

Definition POISSON_LAM_MAX : Q := 9223372006484771000.

Definition toy_normal (loc scale : Q) (n : N) (g : Z)
    : result (list Q) * Z :=
  if Qle_bool 0 scale
  then (let centre := Qred loc in
        let step := Qred scale in
        Ok (map (fun d => centre + step * inject_Z d) (wobbles g n)),
        (g + Z.of_N n)%Z)
  else (Raise ValueError, g).

Definition toy_counts (centre : Q) (n : N) (g : Z) : list Z :=
  let c := Z.max 0 (Qfloor centre) in
  map (fun d => Z.max 0 (c + d)) (wobbles g n).

Definition toy_poisson (lam : Q) (n : N) (g : Z) : result (list Z) * Z :=
  if Qle_bool 0 lam && Qle_bool lam POISSON_LAM_MAX
  then (Ok (toy_counts lam n g), (g + Z.of_N n)%Z)
  else (Raise ValueError, g).

Definition toy_nbinom (r p : Q) (n : N) (g : Z) : result (list Z) * Z :=
  if negb (Qle_bool r 0) && negb (Qle_bool p 0) && Qle_bool p 1
  then (Ok (toy_counts (r * (1 - p) / p) n g), (g + Z.of_N n)%Z)
  else (Raise ValueError, g).

Lemma cycle3_length (len : nat) (a b c : Z) :
  length (cycle3 a b c len) = len.
Proof.
  revert a b c; induction len as [|k IH]; intros a b c; simpl.
  - reflexivity.
  - now rewrite IH.
Qed.

Lemma wobbles_length (g : Z) (n : N) : length (wobbles g n) = N.to_nat n.
Proof.
  unfold wobbles.
  destruct (g mod 3)%Z as [|[| |]|]; apply cycle3_length.
Qed.

Lemma toy_normal_size loc scale n g xs g' :
  toy_normal loc scale n g = (Ok xs, g') -> length xs = N.to_nat n.
Proof.
  unfold toy_normal. destruct (Qle_bool 0 scale); intros E.
  - inversion E; subst. now rewrite length_map, wobbles_length.
  - discriminate.
Qed.

Lemma toy_counts_length centre n g :
  length (toy_counts centre n g) = N.to_nat n.
Proof. unfold toy_counts. now rewrite length_map, wobbles_length. Qed.

Lemma toy_nbinom_size r p n g xs g' :
  toy_nbinom r p n g = (Ok xs, g') -> length xs = N.to_nat n.
Proof.
  unfold toy_nbinom.
  destruct (negb (Qle_bool r 0) && negb (Qle_bool p 0) && Qle_bool p 1);
    intros E.
  - inversion E; subst. apply toy_counts_length.
  - discriminate.
Qed.

Lemma toy_poisson_size lam n g xs g' :
  toy_poisson lam n g = (Ok xs, g') -> length xs = N.to_nat n.
Proof.
  unfold toy_poisson.
  destruct (Qle_bool 0 lam && Qle_bool lam POISSON_LAM_MAX); intros E.
  - inversion E; subst. apply toy_counts_length.
  - discriminate.
Qed.

#[local] Instance ToySource : RandomSource := {|
  rng_state := Z;
  np_random_normal := toy_normal;
  nbinom_rvs := toy_nbinom;
  np_random_poisson := toy_poisson;
  normal_size := toy_normal_size;
  nbinom_size := toy_nbinom_size;
  poisson_size := toy_poisson_size
|}.

Definition toy_world : world := mkWorld ToySource 0%Z [].

(** ** Definitions used by the statements *)

(** *** The scoring formula, taken apart *)

(** [pitcher_factor] of [weighted_score], as a function of the opposing
    pitcher's two numbers. *)
Definition pitcher_factor (opp_era opp_baa : Q) : Q :=
  Qmin 2.0 ((4.5 / Qmax 0.01 opp_era) * 0.7 +
            (0.3 / Qmax 0.001 opp_baa) * 0.3).

(** The product under the floor of [weighted_score]. *)
Definition raw_score (league_factor : Q) (t : TeamStat) (opp : Pitcher) : Q :=
  (ts_time_avg t * 0.5 + ts_base_avg t * 0.3 + ts_allow t * 0.2) *
  league_factor *
  (0.8 + 0.2 * ts_over_rate t) *
  (1.0 / Qmax 0.1 (pitcher_factor (p_era opp) (p_baa opp))) *
  (0.6 + (ts_team_batting t / Qmax 0.001 0.270) * 0.5 +
         (ts_team_obp t / Qmax 0.001 0.340) * 0.5).

(** *** Empirical frequencies *)

(** [np.mean(totals > target) * 100] *)
Definition exceed_percent (totals : list Q) (target : Q) : Q :=
  np_mean (array_gt totals target) * 100.

(** How the frequency of totals above the target depends on the totals:
    it is a percentage; it is 0 when no total is above the target, 100
    when every total is, and below 100 as soon as one total is not. *)
Definition exceed_law (totals : list Q) (target prob : Q) : Prop :=
  0 <= prob <= 100 /\
  (Forall (fun x => x <= target) totals -> prob == 0) /\
  (Forall (fun x => target < x) totals -> prob == 100) /\
  (Exists (fun x => x <= target) totals -> prob < 100).

(** A bound above every element of a list, and one below. *)
Fixpoint upper_bound (l : list Q) : Q :=
  match l with
  | [] => 0
  | x :: l' => Qmax x (upper_bound l')
  end.

Fixpoint lower_bound (l : list Q) : Q :=
  match l with
  | [] => 0
  | x :: l' => Qmin x (lower_bound l')
  end.

(** *** The probability engine, taken apart *)

(** The league blend written in [run_probability_models] and
    [run_models]. *)
Definition blend (league : string) (mc nb po : Q) : Q :=
  if String.eqb league "NPB"
  then mc * 0.5 + nb * 0.35 + po * 0.15
  else mc * 0.6 + nb * 0.25 + po * 0.15.





(** *** The blend in binary64

    The same expressions on the doubles of the code, for the places where
    rounding shows: [percent count] is [np.mean(mask) * 100] for a mask
    of [NUM_SIMULATIONS] entries of which [count] are true. *)

#[local] Set Warnings "-inexact-float".

Module Double.


Definition blend (league : string) (mc_prob nb_prob poisson_prob : float)
    : float :=
  if String.eqb league "NPB"
  then (mc_prob * 0.5 + nb_prob * 0.35 + poisson_prob * 0.15)%float
  else (mc_prob * 0.6 + nb_prob * 0.25 + poisson_prob * 0.15)%float.

End Double.

(** What the three models compute from the three arrays of simulated
    totals. *)
Definition models_of_totals (league : string) (target : Q)
    (d : list Q * list Q * list Q) : NPBKBO.ModelResult :=
  let mc := exceed_percent (fst (fst d)) target in
  let nb := exceed_percent (snd (fst d)) target in
  let po := exceed_percent (snd d) target in
  NPBKBO.mkResult mc nb po (blend league mc nb po).

Definition is_ok {A : Type} (r : result A) : bool :=
  match r with
  | Ok _ => true
  | Raise _ => false
  end.

Section Draws.
Context {RS : RandomSource}.

(** The sampling of the engine, which does not look at the target: the
    six calls in the order of the source, and the three arrays of
    totals. *)
Definition draw_totals (hs as_ : Q) (league : string)
    : M (list Q * list Q * list Q) :=
  let std_dev :=
    if String.eqb league "NPB" then NPB_STD_DEV else KBO_STD_DEV in
  let nb_r := if String.eqb league "NPB" then NPB_NB_R else KBO_NB_R in
  let home_std := std_dev * (hs / Qmax 0.1 (hs + as_)) in
  let away_std := std_dev * (as_ / Qmax 0.1 (hs + as_)) in
  (n1 <- sample (np_random_normal hs home_std NUM_SIMULATIONS) ;;
   n2 <- sample (np_random_normal as_ away_std NUM_SIMULATIONS) ;;
   b1 <- sample (nbinom_rvs nb_r (nb_r / Qmax 0.1 (nb_r + hs))
                   NUM_SIMULATIONS) ;;
   b2 <- sample (nbinom_rvs nb_r (nb_r / Qmax 0.1 (nb_r + as_))
                   NUM_SIMULATIONS) ;;
   p1 <- sample (np_random_poisson hs NUM_SIMULATIONS) ;;
   p2 <- sample (np_random_poisson as_ NUM_SIMULATIONS) ;;
   ret (array_add n1 n2,
        map inject_Z (int_array_add b1 b2),
        map inject_Z (int_array_add p1 p2)))%monad.

End Draws.

(** *** The rating thresholds *)


(** *** Sample inputs *)

Definition idle_team : TeamStat :=
  mkTeamStat 0 0 3.8 0.5 0.270 0.340 (mkPitcherStat 4.0 0.250).

Definition sample_team : TeamStat :=
  mkTeamStat 4.0 4.2 3.8 0.5 0.270 0.340 (mkPitcherStat 4.0 0.250).

Definition sample_team_hot : TeamStat :=
  mkTeamStat 4.0 4.2 3.8 0.5 0.300 0.360 (mkPitcherStat 4.0 0.250).

Definition crowd_team : TeamStat :=
  mkTeamStat 100000000000000000000 100000000000000000000
             100000000000000000000 0.5 0.270 0.340
             (mkPitcherStat 4.0 0.250).

Definition broken_team : team_dict :=
  mkTeam VNone (VFloat 4.2) (VFloat 3.8) (VFloat 0.5)
         (VFloat 0.270) (VFloat 0.340)
         (mkPitcher (VFloat 4.0) (VFloat 0.250)).

(** ** The console of [NPBKBO.py]: [safe_input] and [input_team_data]

    Standard input is the list of what [input()] meets next: a line, or
    an interrupt from the keyboard; at the end of the list [input()]
    raises [EOFError].  The screen holds the messages of [print]; the
    prompts of [input] are not recorded.  [str.strip] and [float] are
    Python's own and are parameters: [py_float s] is [None] where
    [float(s)] raises [ValueError]. *)

Inductive key : Type :=
  | Line (s : string)
  | CtrlC.

(** The exceptions of the console that are not [ValueError]. *)
Inductive signal : Type :=
  | EOFError
  | KeyboardInterrupt
  | SystemExit.

(** A float as [float(...)] can read it: a number, an infinity or [nan]. *)
Inductive xfloat : Type :=
  | Finite (q : Q)
  | PlusInf
  | MinusInf
  | NaN.

(** [a < b] on floats: false as soon as one side is [nan]. *)
Definition xltb (a b : xfloat) : bool :=
  match a, b with
  | NaN, _ => false
  | _, NaN => false
  | Finite x, Finite y => gtb y x
  | Finite _, PlusInf => true
  | Finite _, MinusInf => false
  | PlusInf, _ => false
  | MinusInf, MinusInf => false
  | MinusInf, _ => true
  end.

Inductive message : Type :=
  | TooSmall (min_val : Q)          (* 輸入值不能小於 ... *)
  | TooLarge (max_val : Q)          (* 輸入值不能大於 ... *)
  | NotANumber                      (* 請輸入有效的數值！ *)
  | Cancelled                       (* 輸入已取消 *)
  | TeamHeader (team_name time_period : string) (is_home : bool)
  | AverageWarning (time_avg base_avg : Q)   (* 警告: ... *)
  | AverageWarningX (time_avg base_avg : xfloat)   (* 警告: ... *)
  | InputError (s : signal).        (* 輸入錯誤: ...，請重新輸入 *)

Record console : Type := mkConsole {
  keys : list key;
  screen : list message
}.

(** How a console function ends: it returns, an exception leaves it, or
    it goes round its loop for ever. *)
Inductive outcome (A : Type) : Type :=
  | Returned (a : A) (c : console)
  | Stopped (s : signal) (c : console)
  | Diverges.

Arguments Returned {A} a c.
Arguments Stopped {A} s c.
Arguments Diverges {A}.

Definition obind {A B : Type} (o : outcome A)
    (k : A -> console -> outcome B) : outcome B :=
  match o with
  | Returned a c => k a c
  | Stopped s c => Stopped s c
  | Diverges => Diverges
  end.

Definition say (m : message) (c : console) : console :=
  mkConsole (keys c) (screen c ++ [m]).

(** [input(prompt)] *)
Definition input (c : console) : outcome string :=
  match keys c with
  | [] => Stopped EOFError c
  | Line s :: rest => Returned s (mkConsole rest (screen c))
  | CtrlC :: rest => Stopped KeyboardInterrupt (mkConsole rest (screen c))
  end.

(** [s.lower().startswith('y')] *)
Definition starts_with_y (s : string) : bool :=
  match s with
  | String c _ => (Ascii.eqb c "y" || Ascii.eqb c "Y")%bool
  | EmptyString => false
  end.

Definition below (bound : option Q) (val : Q) : bool :=
  match bound with
  | Some m => gtb m val
  | None => false
  end.

Definition above (bound : option Q) (val : Q) : bool :=
  match bound with
  | Some m => gtb val m
  | None => false
  end.

Section Console.
Variable strip : string -> string.
Variable py_float : string -> option Q.

(** The [while True] of [safe_input], one line of input a turn. *)
Fixpoint safe_input_loop (default min_val max_val : option Q)
    (ks : list key) (scr : list message) : outcome Q :=
  match ks with
  | [] => Stopped EOFError (mkConsole [] scr)
  | CtrlC :: rest => Stopped SystemExit (mkConsole rest (scr ++ [Cancelled]))
  | Line raw :: rest =>
      let user_input := strip raw in
      match default, String.eqb user_input "" with
      | Some d, true => Returned d (mkConsole rest scr)
      | _, _ =>
          match py_float user_input with
          | None =>
              safe_input_loop default min_val max_val rest
                (scr ++ [NotANumber])
          | Some val =>
              if below min_val val then
                safe_input_loop default min_val max_val rest
                  (scr ++ [TooSmall (match min_val with
                                     | Some m => m
                                     | None => 0
                                     end)])
              else if above max_val val then
                safe_input_loop default min_val max_val rest
                  (scr ++ [TooLarge (match max_val with
                                     | Some m => m
                                     | None => 0
                                     end)])
              else Returned val (mkConsole rest scr)
          end
      end
  end.

Definition safe_input (default min_val max_val : option Q) (c : console)
    : outcome Q :=
  safe_input_loop default min_val max_val (keys c) (screen c).

(** The [try] block of [input_team_data]: [Some team] where it returns
    the team, [None] where it says [continue]. *)
Definition input_team_data_try (c : console)
    : outcome (option team_dict) :=
  obind (safe_input None (Some 0) None c) (fun t c =>
  obind (safe_input None (Some 0) None c) (fun b c =>
  obind (safe_input None (Some 0) None c) (fun a c =>
  obind (safe_input None (Some 0) (Some 100) c) (fun over c =>
  obind (safe_input None (Some 0) (Some 1) c) (fun batting c =>
  obind (safe_input None (Some 0) (Some 1) c) (fun obp c =>
  obind (safe_input None (Some 0) None c) (fun e c =>
  obind (safe_input None (Some 0) (Some 1) c) (fun ba c =>
    let team :=
      mkTeam (VFloat t) (VFloat b) (VFloat a) (VFloat (over / 100))
             (VFloat batting) (VFloat obp)
             (mkPitcher (VFloat e) (VFloat ba)) in
    if gtb t (b * 1.5) then
      obind (input (say (AverageWarning t b) c)) (fun answer c =>
        if negb (starts_with_y answer)
        then Returned None c
        else Returned (Some team) c)
    else Returned (Some team) c)))))))).



End Console.

(** ** The console with the floats that are not numbers

    [float] also reads [nan] and the two infinities, which a rational
    cannot hold.  [safe_input_x] and [input_team_data_x] are the two
    console functions again, line for line, with a reader [py_float_x]
    that can return them; with a reader that never does they are
    [safe_input] and [input_team_data].  The bounds and the default that
    the callers pass are numbers. *)

(** [v * k] and [v / k] for a number [k] above 0. *)
Definition xmul (v : xfloat) (k : Q) : xfloat :=
  match v with
  | Finite q => Finite (q * k)
  | other => other
  end.

Definition xdiv (v : xfloat) (k : Q) : xfloat :=
  match v with
  | Finite q => Finite (q / k)
  | other => other
  end.

Definition below_x (bound : option Q) (val : xfloat) : bool :=
  match bound with
  | Some m => xltb val (Finite m)
  | None => false
  end.

Definition above_x (bound : option Q) (val : xfloat) : bool :=
  match bound with
  | Some m => xltb (Finite m) val
  | None => false
  end.

(** The eight numbers of a team dictionary as they were entered. *)
Record entered : Type := mkEntered {
  x_time_avg : xfloat;
  x_base_avg : xfloat;
  x_allow : xfloat;
  x_over_rate : xfloat;
  x_team_batting : xfloat;
  x_team_obp : xfloat;
  x_era : xfloat;
  x_baa : xfloat
}.

Section ConsoleX.
Variable strip : string -> string.
Variable py_float_x : string -> option xfloat.

Fixpoint safe_input_x_loop (default min_val max_val : option Q)
    (ks : list key) (scr : list message) : outcome xfloat :=
  match ks with
  | [] => Stopped EOFError (mkConsole [] scr)
  | CtrlC :: rest => Stopped SystemExit (mkConsole rest (scr ++ [Cancelled]))
  | Line raw :: rest =>
      let user_input := strip raw in
      match default, String.eqb user_input "" with
      | Some d, true => Returned (Finite d) (mkConsole rest scr)
      | _, _ =>
          match py_float_x user_input with
          | None =>
              safe_input_x_loop default min_val max_val rest
                (scr ++ [NotANumber])
          | Some val =>
              if below_x min_val val then
                safe_input_x_loop default min_val max_val rest
                  (scr ++ [TooSmall (match min_val with
                                     | Some m => m
                                     | None => 0
                                     end)])
              else if above_x max_val val then
                safe_input_x_loop default min_val max_val rest
                  (scr ++ [TooLarge (match max_val with
                                     | Some m => m
                                     | None => 0
                                     end)])
              else Returned val (mkConsole rest scr)
          end
      end
  end.

Definition safe_input_x (default min_val max_val : option Q) (c : console)
    : outcome xfloat :=
  safe_input_x_loop default min_val max_val (keys c) (screen c).

Definition input_team_data_x_try (c : console) : outcome (option entered) :=
  obind (safe_input_x None (Some 0) None c) (fun t c =>
  obind (safe_input_x None (Some 0) None c) (fun b c =>
  obind (safe_input_x None (Some 0) None c) (fun a c =>
  obind (safe_input_x None (Some 0) (Some 100) c) (fun over c =>
  obind (safe_input_x None (Some 0) (Some 1) c) (fun batting c =>
  obind (safe_input_x None (Some 0) (Some 1) c) (fun obp c =>
  obind (safe_input_x None (Some 0) None c) (fun e c =>
  obind (safe_input_x None (Some 0) (Some 1) c) (fun ba c =>
    let team := mkEntered t b a (xdiv over 100) batting obp e ba in
    if xltb (xmul b 1.5) t then
      obind (input (say (AverageWarningX t b) c))
        (fun answer c =>
           if negb (starts_with_y answer)
           then Returned None c
           else Returned (Some team) c)
    else Returned (Some team) c)))))))).

Fixpoint input_team_data_x_loop (fuel : nat)
    (team_name time_period : string) (is_home : bool) (c : console)
    : option (outcome entered) :=
  match fuel with
  | O => None
  | S fuel' =>
      match input_team_data_x_try
              (say (TeamHeader team_name time_period is_home) c) with
      | Returned (Some team) c' => Some (Returned team c')
      | Returned None c' =>
          input_team_data_x_loop fuel' team_name time_period is_home c'
      | Stopped EOFError _ => Some Diverges
      | Stopped s c' => Some (Stopped s c')
      | Diverges => Some Diverges
      end
  end.

Definition input_team_data_x (team_name time_period : string)
    (is_home : bool) (c : console) : option (outcome entered) :=
  input_team_data_x_loop (S (length (keys c))) team_name time_period
    is_home c.

End ConsoleX.

(** [a <= b] for floats that are not [nan]. *)
Definition xle (a b : xfloat) : Prop :=
  match a, b with
  | Finite x, Finite y => x <= y
  | Finite _, PlusInf => True
  | MinusInf, Finite _ => True
  | MinusInf, PlusInf => True
  | MinusInf, MinusInf => True
  | PlusInf, PlusInf => True
  | _, _ => False
  end.

(** [val] is not [nan] and lies within the bounds that were given. *)
Definition within_x (min_val max_val : option Q) (val : xfloat) : Prop :=
  (forall m, min_val = Some m -> xle (Finite m) val) /\
  (forall m, max_val = Some m -> xle val (Finite m)).

(** An entry that was checked against 0 only, and one that was checked
    against 0 and an upper bound that makes it at most 1. *)
Definition nonneg_entry (v : xfloat) : Prop :=
  v = NaN \/ v = PlusInf \/ exists q, v = Finite q /\ 0 <= q.

Definition unit_entry (v : xfloat) : Prop :=
  v = NaN \/ exists q, v = Finite q /\ 0 <= q <= 1.

(** The team record of an entry none of whose numbers is [nan] or
    infinite. *)
Definition finite_team (e : entered) : option TeamStat :=
  match x_time_avg e, x_base_avg e, x_allow e, x_over_rate e,
        x_team_batting e, x_team_obp e, x_era e, x_baa e with
  | Finite t, Finite b, Finite a, Finite o,
    Finite tb, Finite ob, Finite er, Finite ba =>
      Some (mkTeamStat t b a o tb ob (mkPitcherStat er ba))
  | _, _, _, _, _, _, _, _ => None
  end.

(** ** The recommendation line of [display_results] *)

(** [int(x)]: towards zero. *)
Definition py_int (q : Q) : Z := Z.quot (Qnum q) (Zpos (Qden q)).

(** [x % 1] on floats: the part above the floor. *)
Definition py_mod1 (q : Q) : Q := q - inject_Z (Qfloor q).

Fixpoint str_repeat (s : string) (n : nat) : string :=
  match n with
  | O => EmptyString
  | S k => (s ++ str_repeat s k)%string
  end.

(** [s * n]; empty when [n] is not positive. *)
Definition str_times (s : string) (n : Z) : string :=
  str_repeat s (Z.to_nat n).

Definition star_bar (rating : Q) : string :=
  (str_times "★" (py_int rating) ++
   str_times "½" (if Qle_bool 0.5 (py_mod1 rating) then 1 else 0) ++
   str_times "☆" (5 - py_int (inject_Z (Qceiling rating))))%string.

Definition recommendation_line (prob : value) : string :=
  let rc := NPBKBO.get_star_recommendation prob in
  ("推薦: " ++ star_bar (fst rc) ++ " " ++ snd rc)%string.

(** ** The message of the form *)

Inductive advice : Type :=
  | FavorOver      (* st.success: 偏向 大分 *)
  | FavorUnder     (* st.warning: 偏向 小分 *)
  | TossUp.        (* st.info: 五五波區間 *)

Definition render_advice (final : Q) : advice :=
  if Qle_bool 55 final then FavorOver
  else if Qle_bool final 45 then FavorUnder
  else TossUp.

(** ** A random source that records its calls

    It returns arrays of zeros and keeps, as its state, the list of the
    calls made with their arguments. *)











(** The arguments on which the library samplers return: a scale that is
    not negative, a dispersion above 0 with a probability in [(0, 1]], a
    rate from 0 to [POISSON_LAM_MAX]. *)
Definition library_domain (RS : RandomSource) : Prop :=
  (forall loc scale n g,
     0 <= scale -> is_ok (fst (np_random_normal loc scale n g)) = true) /\
  (forall r p n g,
     0 < r -> 0 < p <= 1 -> is_ok (fst (nbinom_rvs r p n g)) = true) /\
  (forall lam n g,
     0 <= lam <= POISSON_LAM_MAX ->
     is_ok (fst (np_random_poisson lam n g)) = true).

(** ** Definitions used by the further statements *)

(** The rating as a function of the distance of the probability from
    50. *)
Definition rating_tier (strength : Q) : Q :=
  if Qle_bool 20 strength then 5.0
  else if Qle_bool 10 strength then 4.0
  else if Qle_bool 5 strength then 3.5
  else 3.0.

Definition swap {A : Type} (p : A * A) : A * A := (snd p, fst p).

Definition percentage (p : Q) : Prop := 0 <= p <= 100.



(** The full-mode score with the number [m] in the place of the
    pitcher's multiplier [1.0 / max(0.1, pitcher_factor)]. *)
Definition score_with_multiplier (league_factor : Q) (t : TeamStat)
    (m : Q) : Q :=
  Qmax 0.1
    ((ts_time_avg t * 0.5 + ts_base_avg t * 0.3 + ts_allow t * 0.2) *
     league_factor *
     (0.8 + 0.2 * ts_over_rate t) *
     m *
     (0.6 + (ts_team_batting t / Qmax 0.001 0.270) * 0.5 +
            (ts_team_obp t / Qmax 0.001 0.340) * 0.5)).

(** The full-mode product without the pitcher's multiplier. *)
Definition unopposed_score (league_factor : Q) (t : TeamStat) : Q :=
  (ts_time_avg t * 0.5 + ts_base_avg t * 0.3 + ts_allow t * 0.2) *
  league_factor *
  (0.8 + 0.2 * ts_over_rate t) *
  (0.6 + (ts_team_batting t / Qmax 0.001 0.270) * 0.5 +
         (ts_team_obp t / Qmax 0.001 0.340) * 0.5).

(** The strength that [get_star_recommendation] computes. *)
Definition strength_of (prob : Q) : Q :=
  if Qle_bool 50 prob then prob - 50 else 50 - prob.

(** [val] passes the two range checks of [safe_input]. *)
Definition within (min_val max_val : option Q) (val : Q) : Prop :=
  (forall m, min_val = Some m -> m <= val) /\
  (forall m, max_val = Some m -> val <= m).

(** [c'] is [c] after at least one key was read. *)
Definition reads (c c' : console) : Prop :=
  exists pre, pre <> [] /\ keys c = pre ++ keys c'.

(** The team that the [try] block of [input_team_data] builds from eight
    numbers. *)
Definition entered_team (t b a over batting obp e ba : Q) : TeamStat :=
  mkTeamStat t b a (over / 100) batting obp (mkPitcherStat e ba).



(** The entries of a team as [input_team_data] checks them. *)
Definition checked_entries (e : entered) : Prop :=
  nonneg_entry (x_time_avg e) /\ nonneg_entry (x_base_avg e) /\
  nonneg_entry (x_allow e) /\ unit_entry (x_over_rate e) /\
  unit_entry (x_team_batting e) /\ unit_entry (x_team_obp e) /\
  nonneg_entry (x_era e) /\ unit_entry (x_baa e).

Definition turn_law_x (c : console) (o : outcome (option entered)) : Prop :=
  match o with
  | Returned None c' => reads c c'
  | Returned (Some e) c' => reads c c' /\ checked_entries e
  | Stopped EOFError c' => keys c' = []
  | Stopped _ _ => True
  | Diverges => False
  end.

Definition entry_law_x (c : console) (o : outcome entered) : Prop :=
  match o with
  | Returned e c' => reads c c' /\ checked_entries e
  | Stopped EOFError _ => False
  | Stopped _ _ => True
  | Diverges => True
  end.

(** ** A reader of plain decimals

    One instance of the two parameters of the console, used to run it on
    concrete lines: it reads digits with at most one point, as [float]
    does on such a line, rejects every other line, and strips nothing. *)

Definition digit_of (c : ascii) : option Z :=
  let n := nat_of_ascii c in
  if ((48 <=? n) && (n <=? 57))%nat then Some (Z.of_nat (n - 48)) else None.

Fixpoint read_decimal (s : string) (num : Z) (den : option positive)
    (seen : bool) : option Q :=
  match s with
  | EmptyString =>
      if seen
      then Some (num # match den with Some d => d | None => 1 end)
      else None
  | String c s' =>
      match digit_of c with
      | Some d =>
          read_decimal s' (10 * num + d)
            (option_map (fun p => (10 * p)%positive) den) true
      | None =>
          match den with
          | None =>
              if Ascii.eqb c "." then read_decimal s' num (Some 1%positive) seen
              else None
          | Some _ => None
          end
      end
  end.

Definition toy_float (s : string) : option Q := read_decimal s 0 None false.

Definition toy_strip (s : string) : string := s.

(** A reader for concrete lines: [toy_float], and the word [nan]. *)
Definition toy_float_x (s : string) : option xfloat :=
  if String.eqb s "nan" then Some NaN
  else if String.eqb s "inf" then Some PlusInf
  else option_map Finite (toy_float s).

Definition team_lines : list key :=
  [Line "4.0"; Line "4.2"; Line "3.8"; Line "55";
   Line "0.270"; Line "0.340"; Line "4.0"; Line "0.250"].

Definition hot_team_lines (answer : string) : list key :=
  [Line "7.0"; Line "4.0"; Line "3.8"; Line "55";
   Line "0.270"; Line "0.340"; Line "4.0"; Line "0.250"; Line answer].

(** Averages of at most ten to the sixteenth. *)
Definition AVERAGE_LIMIT : Q := 10000000000000000.

Definition moderate_team (t : TeamStat) : Prop :=
  ts_time_avg t <= AVERAGE_LIMIT /\
  ts_base_avg t <= AVERAGE_LIMIT /\
  ts_allow t <= AVERAGE_LIMIT.

(** * Properties *)

(** ** Arithmetic helpers *)

Lemma Qmax_floor_pos (c x : Q) : 0 < c -> 0 < Qmax c x.
Proof.
  intros Hc. apply Qlt_le_trans with c; [exact Hc | apply Q.le_max_l].
Qed.

Lemma Qinv_antitone (x y : Q) : 0 < x -> x <= y -> / y <= / x.
Proof.
  intros Hx Hxy.
  assert (Hy : 0 < y) by (apply Qlt_le_trans with x; assumption).
  apply Qle_shift_inv_l; [exact Hx |].
  setoid_replace (/ y * x) with (x / y) by (unfold Qdiv; ring).
  apply Qle_shift_div_r; [exact Hy | lra].
Qed.

Lemma Qdiv_antitone (c x y : Q) :
  0 <= c -> 0 < x -> x <= y -> c / y <= c / x.
Proof.
  intros Hc Hx Hxy. unfold Qdiv.
  rewrite (Qmult_comm c (/ y)), (Qmult_comm c (/ x)).
  apply Qmult_le_compat_r; [now apply Qinv_antitone | exact Hc].
Qed.

Lemma Qinv_pos (x : Q) : 0 < x -> 0 < / x.
Proof. apply Qinv_lt_0_compat. Qed.

Lemma Qmult_nonneg (x y : Q) : 0 <= x -> 0 <= y -> 0 <= x * y.
Proof. apply Qmult_le_0_compat. Qed.

(** ** The scoring formula, taken apart *)

Lemma weighted_score_numeric (lf : Q) (t : TeamStat) (opp : Pitcher) :
  NPBKBO.weighted_score lf (dict_of t) (pitcher_of opp)
  = Ok (Qmax 0.1 (raw_score lf t opp)).
Proof. reflexivity. Qed.

Lemma app_weighted_score_same (lf : Q) (d : team_dict) (p : pitcher_dict) :
  App.weighted_score d p lf = NPBKBO.weighted_score lf d p.
Proof. reflexivity. Qed.

Lemma league_factor_pos (league : string) :
  0 < (if String.eqb league "NPB" then 0.95 else 1.05).
Proof. destruct (String.eqb league "NPB"); reflexivity. Qed.

Lemma pitcher_factor_spec (p : Pitcher) :
  pitcher_factor (p_era p) (p_baa p) == spec_pitcher_factor p.
Proof.
  unfold pitcher_factor, spec_pitcher_factor.
  now rewrite (Q.max_comm 0.01 (p_era p)), (Q.max_comm 0.001 (p_baa p)).
Qed.

Lemma raw_score_spec (league : string) (t : TeamStat) (opp : Pitcher) :
  raw_score (spec_league_multiplier league) t opp
  == spec_base_score t * spec_league_multiplier league *
     (0.8 + 0.2 * ts_over_rate t) *
     (1 / Qmax (spec_pitcher_factor opp) 0.1) *
     spec_offense_factor t.
Proof.
  unfold raw_score, spec_base_score, spec_offense_factor.
  rewrite (pitcher_factor_spec opp).
  rewrite (Q.max_comm 0.1 (spec_pitcher_factor opp)).
  change (Qmax 0.001 0.270) with 0.270.
  change (Qmax 0.001 0.340) with 0.340.
  unfold Qdiv. ring.
Qed.

(** ** [calculate_scores] *)

Section Scores.
Context {RS : RandomSource}.

Lemma calculate_scores_returns (home away : team_dict) (league : string)
    (include_effects : bool) (w : world) (hs as_ : Q) :
  NPBKBO.calculate_scores_body home away league include_effects
    = Ok (hs, as_) ->
  NPBKBO.calculate_scores home away league include_effects w
    = (Ok (VFloat hs, VFloat as_), w).
Proof.
  intros E. unfold NPBKBO.calculate_scores, try_except, bind, lift, ret.
  now rewrite E.
Qed.

Lemma calculate_scores_sentinel (home away : team_dict) (league : string)
    (include_effects : bool) (w : world) (e : exn) :
  NPBKBO.calculate_scores_body home away league include_effects = Raise e ->
  NPBKBO.calculate_scores home away league include_effects w
    = (Ok (VNone, VNone), mkWorld RS (rng w) (stdout w ++ [ScoreError e])).
Proof.
  intros E.
  unfold NPBKBO.calculate_scores, try_except, bind, lift, ret, print.
  now rewrite E.
Qed.

Lemma calculate_scores_body_full (home away : TeamStat) (league : string) :
  NPBKBO.calculate_scores_body (dict_of home) (dict_of away) league true
  = Ok (Qmax 0.1 (raw_score (spec_league_multiplier league) home
                            (ts_pitcher away)),
        Qmax 0.1 (raw_score (spec_league_multiplier league) away
                            (ts_pitcher home))).
Proof. reflexivity. Qed.

Lemma calculate_scores_body_baseline (home away : TeamStat)
    (league : string) :
  NPBKBO.calculate_scores_body (dict_of home) (dict_of away) league false
  = Ok ((ts_time_avg home * 0.6 + ts_base_avg home * 0.4)
          * spec_league_multiplier league,
        (ts_time_avg away * 0.6 + ts_base_avg away * 0.4)
          * spec_league_multiplier league).
Proof. reflexivity. Qed.

(** C1. On two numeric team records [calculate_scores] returns, without
    printing, the scores of the two formulas of section 4.1.  Baseline
    mode: [(time_avg*0.6 + base_avg*0.4) * multiplier], the same for any
    two records that agree on [time_avg] and [base_avg], whatever their
    pitcher and offense fields.  Full mode: the floored product, with the
    pitcher factor of the opposing team's pitcher.  The multiplier is 0.95
    for NPB and 1.05 for KBO.  The form's [weighted_score] computes the
    same full-mode score. *)
Theorem calculate_scores_formulas (home away : TeamStat) (league : string)
    (w : world) :
  (spec_league_multiplier "NPB" = 0.95 /\
   spec_league_multiplier "KBO" = 1.05) /\
  (exists hs as_ : Q,
     NPBKBO.calculate_scores (dict_of home) (dict_of away) league false w
       = (Ok (VFloat hs, VFloat as_), w) /\
     hs == spec_baseline_score league home /\
     as_ == spec_baseline_score league away) /\
  (forall home' away' : TeamStat,
     ts_time_avg home' = ts_time_avg home ->
     ts_base_avg home' = ts_base_avg home ->
     ts_time_avg away' = ts_time_avg away ->
     ts_base_avg away' = ts_base_avg away ->
     NPBKBO.calculate_scores (dict_of home') (dict_of away') league false w
     = NPBKBO.calculate_scores (dict_of home) (dict_of away) league false w) /\
  (exists hs as_ : Q,
     NPBKBO.calculate_scores (dict_of home) (dict_of away) league true w
       = (Ok (VFloat hs, VFloat as_), w) /\
     hs == spec_full_score league home (ts_pitcher away) /\
     as_ == spec_full_score league away (ts_pitcher home) /\
     App.weighted_score (dict_of home) (pitcher_of (ts_pitcher away))
       (spec_league_multiplier league) = Ok hs /\
     App.weighted_score (dict_of away) (pitcher_of (ts_pitcher home))
       (spec_league_multiplier league) = Ok as_).
Proof.
  split; [split; reflexivity |].
  split; [| split].
  - eexists; eexists. split.
    + apply calculate_scores_returns, calculate_scores_body_baseline.
    + split; reflexivity.
  - intros home' away' Ht Hb Ht' Hb'.
    rewrite (calculate_scores_returns _ _ _ _ w _ _
               (calculate_scores_body_baseline home' away' league)).
    rewrite (calculate_scores_returns _ _ _ _ w _ _
               (calculate_scores_body_baseline home away league)).
    now rewrite Ht, Hb, Ht', Hb'.
  - eexists; eexists. split.
    + apply calculate_scores_returns, calculate_scores_body_full.
    + unfold spec_full_score.
      repeat split; try reflexivity;
        apply Q.max_compat; try reflexivity; apply raw_score_spec.
Qed.

End Scores.

(** ** The floor *)

Lemma idle_team_valid : valid_team idle_team.
Proof.
  unfold valid_team, valid_pitcher, idle_team; simpl.
  repeat split; discriminate.
Qed.

Lemma baseline_score_sign (league : string) (t : TeamStat) :
  0 <= ts_time_avg t -> 0 <= ts_base_avg t ->
  0 <= spec_baseline_score league t /\
  (0 < spec_baseline_score league t <->
   0 < ts_time_avg t \/ 0 < ts_base_avg t).
Proof.
  intros Ht Hb. unfold spec_baseline_score, spec_league_multiplier.
  destruct (String.eqb league "NPB").
  - split; [lra |]. split.
    + intros H. destruct (Qlt_le_dec 0 (ts_time_avg t)) as [L|L];
        [now left | right; lra].
    + intros [H|H]; lra.
  - split; [lra |]. split.
    + intros H. destruct (Qlt_le_dec 0 (ts_time_avg t)) as [L|L];
        [now left | right; lra].
    + intros [H|H]; lra.
Qed.

Section Floor.
Context {RS : RandomSource}.

(** C4, as the code has it.  For valid team records the full-mode scores
    are at least 0.1, hence positive.  The baseline scores carry no floor:
    they are not negative, and the score of a side is 0 when its
    [time_avg] and [base_avg] are both 0. *)
Theorem calculate_scores_floor (home away : TeamStat) (league : string)
    (w : world) :
  valid_team home -> valid_team away ->
  (exists hs as_ : Q,
     NPBKBO.calculate_scores (dict_of home) (dict_of away) league true w
       = (Ok (VFloat hs, VFloat as_), w) /\
     0.1 <= hs /\ 0.1 <= as_ /\ 0 < hs /\ 0 < as_) /\
  (exists hs as_ : Q,
     NPBKBO.calculate_scores (dict_of home) (dict_of away) league false w
       = (Ok (VFloat hs, VFloat as_), w) /\
     0 <= hs /\ 0 <= as_ /\
     (ts_time_avg home == 0 -> ts_base_avg home == 0 -> hs == 0) /\
     (ts_time_avg away == 0 -> ts_base_avg away == 0 -> as_ == 0)).
Proof.
  intros (Hht & Hhb & _) (Hat & Hab & _). split.
  - eexists; eexists. split.
    + apply calculate_scores_returns, calculate_scores_body_full.
    + repeat split; try apply Q.le_max_l;
        apply Qmax_floor_pos; reflexivity.
  - eexists; eexists. split.
    + apply calculate_scores_returns, calculate_scores_body_baseline.
    + destruct (baseline_score_sign league home Hht Hhb) as [H1 _].
      destruct (baseline_score_sign league away Hat Hab) as [H3 _].
      unfold spec_baseline_score in *.
      repeat split; try assumption; intros E1 E2; rewrite E1, E2; ring.
Qed.

End Floor.

(** C4 as stated fails in baseline mode: a valid team that has scored no
    runs gets the baseline score 0. *)
Lemma baseline_score_zero :
  valid_team idle_team /\
  exists hs as_ : Q,
    NPBKBO.calculate_scores (RS := ToySource)
      (dict_of idle_team) (dict_of idle_team) "NPB" false toy_world
      = (Ok (VFloat hs, VFloat as_), toy_world) /\
    ~ 0 < hs /\ ~ 0 < as_.
Proof.
  split; [exact idle_team_valid |].
  eexists; eexists. split; [reflexivity |].
  split; intros H; vm_compute in H; discriminate.
Qed.

Lemma calculate_scores_floor_witness :
  exists hs as_ : Q,
    NPBKBO.calculate_scores (RS := ToySource)
      (dict_of idle_team) (dict_of idle_team) "KBO" true toy_world
      = (Ok (VFloat hs, VFloat as_), toy_world) /\
    0.1 <= hs /\ 0.1 <= as_ /\ 0 < hs /\ 0 < as_.
Proof.
  exact (proj1 (calculate_scores_floor (RS := ToySource)
                  idle_team idle_team "KBO" toy_world
                  idle_team_valid idle_team_valid)).
Defined.

(** ** Monotonicity of the full-mode score *)

Lemma pitcher_factor_antitone (e e' b b' : Q) :
  e <= e' -> b <= b' -> pitcher_factor e' b' <= pitcher_factor e b.
Proof.
  intros He Hb. unfold pitcher_factor.
  apply Q.min_le_compat_l, Qplus_le_compat.
  - apply Qmult_le_compat_r; [| discriminate].
    apply Qdiv_antitone; [discriminate | |].
    + apply Qmax_floor_pos; reflexivity.
    + now apply Q.max_le_compat_l.
  - apply Qmult_le_compat_r; [| discriminate].
    apply Qdiv_antitone; [discriminate | |].
    + apply Qmax_floor_pos; reflexivity.
    + now apply Q.max_le_compat_l.
Qed.

Lemma pitcher_reciprocal_monotone (f f' : Q) :
  f' <= f -> 1.0 / Qmax 0.1 f <= 1.0 / Qmax 0.1 f'.
Proof.
  intros H. apply Qdiv_antitone; [discriminate | |].
  - apply Qmax_floor_pos; reflexivity.
  - now apply Q.max_le_compat_l.
Qed.

Lemma pitcher_reciprocal_pos (f : Q) : 0 < 1.0 / Qmax 0.1 f.
Proof.
  unfold Qdiv. apply Qmult_lt_0_compat; [reflexivity |].
  apply Qinv_pos, Qmax_floor_pos; reflexivity.
Qed.

Lemma offense_factor_monotone (tb tb' ob ob' : Q) :
  0 <= tb -> 0 <= ob -> tb <= tb' -> ob <= ob' ->
  0 <= 0.6 + (tb / Qmax 0.001 0.270) * 0.5 + (ob / Qmax 0.001 0.340) * 0.5
    <= 0.6 + (tb' / Qmax 0.001 0.270) * 0.5
           + (ob' / Qmax 0.001 0.340) * 0.5.
Proof.
  intros H1 H2 H3 H4.
  change (Qmax 0.001 0.270) with 0.270.
  change (Qmax 0.001 0.340) with 0.340.
  unfold Qdiv.
  change (/ 0.270) with (1000 # 270).
  change (/ 0.340) with (1000 # 340).
  split; lra.
Qed.

Lemma raw_score_monotone (league : string) (t t' : TeamStat)
    (opp opp' : Pitcher) :
  valid_team t ->
  ts_time_avg t' = ts_time_avg t ->
  ts_base_avg t' = ts_base_avg t ->
  ts_allow t' = ts_allow t ->
  ts_over_rate t' = ts_over_rate t ->
  ts_team_batting t <= ts_team_batting t' ->
  ts_team_obp t <= ts_team_obp t' ->
  p_era opp <= p_era opp' ->
  p_baa opp <= p_baa opp' ->
  raw_score (spec_league_multiplier league) t opp
  <= raw_score (spec_league_multiplier league) t' opp'.
Proof.
  intros (Ht & Hb & Ha & [Ho _] & [Htb _] & [Hob _] & _)
         Et Eb Ea Eo Ltb Lob Le Lb.
  unfold raw_score. rewrite Et, Eb, Ea, Eo.
  apply Qmult_le_compat_nonneg.
  - split.
    + apply Qmult_nonneg.
      * apply Qmult_nonneg; [apply Qmult_nonneg |]; try lra.
        apply Qlt_le_weak, league_factor_pos.
      * apply Qlt_le_weak, pitcher_reciprocal_pos.
    + rewrite !(Qmult_comm _ (1.0 / _)).
      apply Qmult_le_compat_r.
      * apply pitcher_reciprocal_monotone.
        now apply pitcher_factor_antitone.
      * apply Qmult_nonneg; [apply Qmult_nonneg |]; try lra.
        apply Qlt_le_weak, league_factor_pos.
  - now apply offense_factor_monotone.
Qed.

(** C6. With the side's averages and over-rate fixed at valid values, the
    full-mode score does not decrease when the side's own batting average
    or on-base percentage rises, nor when the opposing pitcher's era or
    baa rises: the pitcher factor does not rise, its floored reciprocal
    does not fall, and so the score does not fall.  Both front ends. *)
Theorem weighted_score_monotone (league : string) (t t' : TeamStat)
    (opp opp' : Pitcher) :
  valid_team t ->
  ts_time_avg t' = ts_time_avg t ->
  ts_base_avg t' = ts_base_avg t ->
  ts_allow t' = ts_allow t ->
  ts_over_rate t' = ts_over_rate t ->
  ts_team_batting t <= ts_team_batting t' ->
  ts_team_obp t <= ts_team_obp t' ->
  p_era opp <= p_era opp' ->
  p_baa opp <= p_baa opp' ->
  pitcher_factor (p_era opp') (p_baa opp')
    <= pitcher_factor (p_era opp) (p_baa opp) /\
  1.0 / Qmax 0.1 (pitcher_factor (p_era opp) (p_baa opp))
    <= 1.0 / Qmax 0.1 (pitcher_factor (p_era opp') (p_baa opp')) /\
  exists s s' : Q,
    NPBKBO.weighted_score (spec_league_multiplier league)
      (dict_of t) (pitcher_of opp) = Ok s /\
    NPBKBO.weighted_score (spec_league_multiplier league)
      (dict_of t') (pitcher_of opp') = Ok s' /\
    App.weighted_score (dict_of t) (pitcher_of opp)
      (spec_league_multiplier league) = Ok s /\
    App.weighted_score (dict_of t') (pitcher_of opp')
      (spec_league_multiplier league) = Ok s' /\
    s <= s'.
Proof.
  intros V Et Eb Ea Eo Ltb Lob Le Lb.
  assert (Hpf := pitcher_factor_antitone _ _ _ _ Le Lb).
  split; [exact Hpf |].
  split; [now apply pitcher_reciprocal_monotone |].
  exists (Qmax 0.1 (raw_score (spec_league_multiplier league) t opp)),
         (Qmax 0.1 (raw_score (spec_league_multiplier league) t' opp')).
  repeat split; try reflexivity.
  apply Q.max_le_compat_l. now apply raw_score_monotone.
Qed.

Lemma sample_team_valid : valid_team sample_team.
Proof.
  unfold valid_team, valid_pitcher, sample_team; simpl.
  repeat split; discriminate.
Qed.

Lemma weighted_score_monotone_witness :
  exists s s' : Q,
    NPBKBO.weighted_score (spec_league_multiplier "NPB")
      (dict_of sample_team) (pitcher_of (mkPitcherStat 2.5 0.210)) = Ok s /\
    NPBKBO.weighted_score (spec_league_multiplier "NPB")
      (dict_of sample_team_hot) (pitcher_of (mkPitcherStat 5.5 0.290))
      = Ok s' /\
    App.weighted_score (dict_of sample_team)
      (pitcher_of (mkPitcherStat 2.5 0.210))
      (spec_league_multiplier "NPB") = Ok s /\
    App.weighted_score (dict_of sample_team_hot)
      (pitcher_of (mkPitcherStat 5.5 0.290))
      (spec_league_multiplier "NPB") = Ok s' /\
    s <= s'.
Proof.
  apply (weighted_score_monotone "NPB" sample_team sample_team_hot
           (mkPitcherStat 2.5 0.210) (mkPitcherStat 5.5 0.290)
           sample_team_valid eq_refl eq_refl eq_refl eq_refl);
    simpl; discriminate.
Defined.

(** ** Empirical frequencies *)

Lemma int_array_gt_inject (a : list Z) (target : Q) :
  int_array_gt a target = array_gt (map inject_Z a) target.
Proof. unfold int_array_gt, array_gt. now rewrite map_map. Qed.

Lemma gtb_true_iff (x y : Q) : gtb x y = true <-> y < x.
Proof.
  unfold gtb. split; intros H.
  - apply Qgt_alt. destruct (x ?= y); congruence.
  - apply Qgt_alt in H. now rewrite H.
Qed.

Lemma gtb_false_iff (x y : Q) : gtb x y = false <-> x <= y.
Proof.
  unfold gtb. rewrite Qle_alt.
  destruct (x ?= y); split; congruence.
Qed.

Lemma count_true_bounds (m : list bool) :
  (0 <= count_true m <= Z.of_nat (length m))%Z.
Proof.
  induction m as [|b m IH]; simpl length; simpl count_true.
  - lia.
  - destruct b; lia.
Qed.

Lemma count_true_none (totals : list Q) (target : Q) :
  Forall (fun x => x <= target) totals ->
  count_true (array_gt totals target) = 0%Z.
Proof.
  induction 1 as [|x l Hx _ IH]; simpl.
  - reflexivity.
  - apply gtb_false_iff in Hx. now rewrite Hx, IH.
Qed.

Lemma count_true_all (totals : list Q) (target : Q) :
  Forall (fun x => target < x) totals ->
  count_true (array_gt totals target) = Z.of_nat (length totals).
Proof.
  induction 1 as [|x l Hx _ IH]; simpl length; simpl array_gt;
    simpl count_true.
  - reflexivity.
  - apply gtb_true_iff in Hx. rewrite Hx, IH. lia.
Qed.

Lemma count_true_some_missing (totals : list Q) (target : Q) :
  Exists (fun x => x <= target) totals ->
  (count_true (array_gt totals target) < Z.of_nat (length totals))%Z.
Proof.
  induction 1 as [x l Hx | x l _ IH]; simpl length; simpl array_gt;
    simpl count_true.
  - apply gtb_false_iff in Hx. rewrite Hx.
    pose proof (count_true_bounds (array_gt l target)) as B.
    unfold array_gt in B. rewrite length_map in B.
    fold (array_gt l target) in B. lia.
  - destruct (gtb x target); lia.
Qed.

Lemma array_gt_length (totals : list Q) (target : Q) :
  length (array_gt totals target) = length totals.
Proof. unfold array_gt. apply length_map. Qed.

Lemma inject_Z_pos (n : Z) : (0 < n)%Z -> 0 < inject_Z n.
Proof. intros H. change 0 with (inject_Z 0). now rewrite <- Zlt_Qlt. Qed.

Lemma ratio_bounds (c n : Z) :
  (0 <= c <= n)%Z -> 0 <= inject_Z c / inject_Z n <= 1.
Proof.
  intros [H0 H1].
  destruct (Z.eq_dec n 0) as [->|Hn].
  - assert (c = 0%Z) as -> by lia. split; discriminate.
  - assert (Hp : 0 < inject_Z n) by (apply inject_Z_pos; lia).
    split.
    + apply Qle_shift_div_l; [exact Hp |].
      rewrite Qmult_0_l. change 0 with (inject_Z 0).
      now rewrite <- Zle_Qle.
    + apply Qle_shift_div_r; [exact Hp |].
      rewrite Qmult_1_l. now rewrite <- Zle_Qle.
Qed.

Lemma ratio_below_one (c n : Z) :
  (0 <= c < n)%Z -> inject_Z c / inject_Z n < 1.
Proof.
  intros [H0 H1].
  apply Qlt_shift_div_r; [apply inject_Z_pos; lia |].
  rewrite Qmult_1_l. now rewrite <- Zlt_Qlt.
Qed.

Lemma ratio_one (n : Z) : (0 < n)%Z -> inject_Z n / inject_Z n == 1.
Proof.
  intros H. apply Qmult_inv_r.
  pose proof (inject_Z_pos n H). lra.
Qed.

Lemma exceed_percent_bounds (totals : list Q) (target : Q) :
  0 <= exceed_percent totals target <= 100.
Proof.
  unfold exceed_percent, np_mean.
  pose proof (ratio_bounds _ _ (count_true_bounds (array_gt totals target))).
  lra.
Qed.

Lemma exceed_percent_none (totals : list Q) (target : Q) :
  Forall (fun x => x <= target) totals ->
  exceed_percent totals target == 0.
Proof.
  intros H. unfold exceed_percent, np_mean.
  rewrite (count_true_none _ _ H). unfold Qdiv. ring.
Qed.

Lemma exceed_percent_all (totals : list Q) (target : Q) :
  totals <> [] ->
  Forall (fun x => target < x) totals ->
  exceed_percent totals target == 100.
Proof.
  intros Hne H. unfold exceed_percent, np_mean.
  rewrite (count_true_all _ _ H), array_gt_length.
  rewrite ratio_one; [ring |].
  destruct totals; [congruence | simpl length; lia].
Qed.

Lemma exceed_percent_some_missing (totals : list Q) (target : Q) :
  Exists (fun x => x <= target) totals ->
  exceed_percent totals target < 100.
Proof.
  intros H. unfold exceed_percent, np_mean.
  pose proof (count_true_some_missing _ _ H) as L.
  pose proof (count_true_bounds (array_gt totals target)) as B.
  rewrite array_gt_length in *.
  pose proof (ratio_below_one _ _ (conj (proj1 B) L)).
  lra.
Qed.

Lemma upper_bound_spec (l : list Q) (target : Q) :
  upper_bound l <= target -> Forall (fun x => x <= target) l.
Proof.
  induction l as [|x l IH]; simpl; intros H; constructor.
  - apply Qle_trans with (Qmax x (upper_bound l));
      [apply Q.le_max_l | exact H].
  - apply IH. apply Qle_trans with (Qmax x (upper_bound l));
      [apply Q.le_max_r | exact H].
Qed.

Lemma lower_bound_spec (l : list Q) (target : Q) :
  target < lower_bound l -> Forall (fun x => target < x) l.
Proof.
  induction l as [|x l IH]; simpl; intros H; constructor.
  - apply Qlt_le_trans with (Qmin x (lower_bound l));
      [exact H | apply Q.le_min_l].
  - apply IH. apply Qlt_le_trans with (Qmin x (lower_bound l));
      [exact H | apply Q.le_min_r].
Qed.

(** ** The probability engine, taken apart *)



Section Engine.
Context {RS : RandomSource}.

Ltac run_samplers :=
  repeat match goal with
  | |- context [np_random_normal ?a ?b ?c ?g] =>
      destruct (np_random_normal a b c g) as [[?|?] ?]; simpl
  | |- context [nbinom_rvs ?a ?b ?c ?g] =>
      destruct (nbinom_rvs a b c g) as [[?|?] ?]; simpl
  | |- context [np_random_poisson ?a ?c ?g] =>
      destruct (np_random_poisson a c g) as [[?|?] ?]; simpl
  end.

Lemma body_by_totals (hs as_ target : Q) (league : string) (w : world) :
  NPBKBO.run_probability_models_body (VFloat hs) (VFloat as_) target league w
  = match draw_totals hs as_ league w with
    | (Ok d, w') => (Ok (models_of_totals league target d), w')
    | (Raise e, w') => (Raise e, w')
    end.
Proof.
  unfold NPBKBO.run_probability_models_body, draw_totals, models_of_totals,
    exceed_percent, blend, bind, lift, ret, sample; simpl.
  run_samplers; try reflexivity.
  now rewrite !int_array_gt_inject.
Qed.

Lemma run_models_by_totals (hs as_ target : Q) (league : string)
    (w : world) :
  App.run_models hs as_ target league w
  = match draw_totals hs as_ league w with
    | (Ok d, w') =>
        let r := models_of_totals league target d in
        (Ok (NPBKBO.mc_prob r, NPBKBO.nb_prob r, NPBKBO.poisson_prob r,
             NPBKBO.final_prob r), w')
    | (Raise e, w') => (Raise e, w')
    end.
Proof.
  unfold App.run_models, draw_totals, models_of_totals,
    exceed_percent, blend, bind, lift, ret, sample; simpl.
  run_samplers; try reflexivity.
  now rewrite !int_array_gt_inject.
Qed.

Lemma body_rejects_none_home (away_score : value) (target : Q)
    (league : string) (w : world) :
  NPBKBO.run_probability_models_body VNone away_score target league w
  = (Raise TypeError, w).
Proof. reflexivity. Qed.

Lemma body_rejects_none_away (hs target : Q) (league : string) (w : world) :
  NPBKBO.run_probability_models_body (VFloat hs) VNone target league w
  = (Raise TypeError, w).
Proof. reflexivity. Qed.

Lemma draw_totals_stdout (hs as_ : Q) (league : string) (w : world) :
  stdout (snd (draw_totals hs as_ league w)) = stdout w.
Proof.
  unfold draw_totals, bind, ret, sample; simpl.
  run_samplers; reflexivity.
Qed.

Lemma body_stdout (home_score away_score : value) (target : Q)
    (league : string) (w : world) :
  stdout (snd (NPBKBO.run_probability_models_body home_score away_score
                 target league w)) = stdout w.
Proof.
  destruct home_score as [hs|]; [destruct away_score as [as_|] |];
    try reflexivity.
  rewrite body_by_totals.
  pose proof (draw_totals_stdout hs as_ league w) as H.
  destruct (draw_totals hs as_ league w) as [[d|e] w']; exact H.
Qed.

Lemma run_probability_models_unfold (home_score away_score : value)
    (target : Q) (league : string) (w : world) :
  NPBKBO.run_probability_models home_score away_score target league w
  = match NPBKBO.run_probability_models_body home_score away_score
            target league w with
    | (Ok r, w') => (Ok r, w')
    | (Raise e, w') =>
        (Ok NPBKBO.neutral,
         mkWorld RS (rng w') (stdout w' ++ [SimulationError e]))
    end.
Proof.
  unfold NPBKBO.run_probability_models, try_except, bind, print, ret.
  destruct (NPBKBO.run_probability_models_body _ _ _ _ w) as [[r|e] w'];
    reflexivity.
Qed.

End Engine.

(** ** Properties of the engine *)

Section EngineProperties.
Context {RS : RandomSource}.

(** Console front end: a model computation that raises is absorbed; the
    caller gets the neutral result and one line is printed. *)
Lemma run_probability_models_absorbs (home_score away_score : value)
    (target : Q) (league : string) (w w' : world) (e : exn) :
  NPBKBO.run_probability_models_body home_score away_score target league w
    = (Raise e, w') ->
  NPBKBO.run_probability_models home_score away_score target league w
    = (Ok NPBKBO.neutral,
       mkWorld RS (rng w') (stdout w ++ [SimulationError e])).
Proof.
  intros E. rewrite run_probability_models_unfold.
  pose proof (body_stdout home_score away_score target league w) as S.
  rewrite E in *. simpl in S. now rewrite S.
Qed.

Lemma run_probability_models_total (home_score away_score : value)
    (target : Q) (league : string) (w : world) :
  exists r w',
    NPBKBO.run_probability_models home_score away_score target league w
      = (Ok r, w') /\
    (r = NPBKBO.neutral \/
     exists d, r = models_of_totals league target d).
Proof.
  rewrite run_probability_models_unfold.
  destruct home_score as [hs|]; [destruct away_score as [as_|] |].
  - rewrite body_by_totals.
    destruct (draw_totals hs as_ league w) as [[d|e] w'];
      eexists; eexists; (split; [reflexivity |]); eauto.
  - rewrite body_rejects_none_away. eexists; eexists; split; eauto.
  - rewrite body_rejects_none_home. eexists; eexists; split; eauto.
Qed.



Lemma run_models_propagates (hs as_ target : Q) (league : string)
    (w w' : world) (e : exn) :
  draw_totals hs as_ league w = (Raise e, w') ->
  App.run_models hs as_ target league w = (Raise e, w').
Proof. intros E. now rewrite run_models_by_totals, E. Qed.

Lemma run_absorbs_draws (hs as_ target : Q) (league : string)
    (w w' : world) (e : exn) :
  draw_totals hs as_ league w = (Raise e, w') ->
  NPBKBO.run_probability_models (VFloat hs) (VFloat as_) target league w
  = (Ok NPBKBO.neutral,
     mkWorld RS (rng w') (stdout w ++ [SimulationError e])).
Proof.
  intros E. apply run_probability_models_absorbs.
  now rewrite body_by_totals, E.
Qed.

Lemma array_add_length (a b : list Q) :
  length a = length b -> length (array_add a b) = length a.
Proof.
  revert b; induction a as [|x a IH]; intros [|y b] H; simpl in *;
    try congruence.
  now rewrite IH by congruence.
Qed.

Lemma int_array_add_length (a b : list Z) :
  length a = length b -> length (int_array_add a b) = length a.
Proof.
  revert b; induction a as [|x a IH]; intros [|y b] H; simpl in *;
    try congruence.
  now rewrite IH by congruence.
Qed.

Lemma simulations_nonzero : N.to_nat NUM_SIMULATIONS <> O.
Proof.
  intros H. pose proof (N2Nat.id NUM_SIMULATIONS) as E.
  rewrite H in E. discriminate E.
Qed.

Lemma draw_totals_sizes (hs as_ : Q) (league : string) (w w' : world)
    (mcs nbs pos : list Q) :
  draw_totals hs as_ league w = (Ok (mcs, nbs, pos), w') ->
  length mcs = N.to_nat NUM_SIMULATIONS /\
  length nbs = N.to_nat NUM_SIMULATIONS /\
  length pos = N.to_nat NUM_SIMULATIONS.
Proof.
  unfold draw_totals, bind, ret, sample; simpl.
  repeat match goal with
  | |- context [np_random_normal ?a ?b ?c ?g] =>
      let E := fresh "E" in
      destruct (np_random_normal a b c g) as [[?|?] ?] eqn:E; simpl;
      [apply normal_size in E | discriminate]
  | |- context [nbinom_rvs ?a ?b ?c ?g] =>
      let E := fresh "E" in
      destruct (nbinom_rvs a b c g) as [[?|?] ?] eqn:E; simpl;
      [apply nbinom_size in E | discriminate]
  | |- context [np_random_poisson ?a ?c ?g] =>
      let E := fresh "E" in
      destruct (np_random_poisson a c g) as [[?|?] ?] eqn:E; simpl;
      [apply poisson_size in E | discriminate]
  end.
  intros H. inversion H; subst; clear H.
  rewrite !length_map, array_add_length, !int_array_add_length
    by congruence.
  auto.
Qed.

Lemma nonempty_of_size (l : list Q) :
  length l = N.to_nat NUM_SIMULATIONS -> l <> [].
Proof.
  intros H ->. simpl in H. symmetry in H. now apply simulations_nonzero in H.
Qed.

End EngineProperties.

(** ** Limits in the target *)

Lemma exceed_percent_law (totals : list Q) (target : Q) :
  totals <> [] ->
  exceed_law totals target (exceed_percent totals target).
Proof.
  intros Hne. unfold exceed_law. repeat split.
  - apply exceed_percent_bounds.
  - apply exceed_percent_bounds.
  - apply exceed_percent_none.
  - now apply exceed_percent_all.
  - apply exceed_percent_some_missing.
Qed.

Section Limits.
Context {RS : RandomSource}.

Lemma run_on_totals (hs as_ target : Q) (league : string) (w w' : world)
    (d : list Q * list Q * list Q) :
  draw_totals hs as_ league w = (Ok d, w') ->
  NPBKBO.run_probability_models (VFloat hs) (VFloat as_) target league w
  = (Ok (models_of_totals league target d), w').
Proof.
  intros E. now rewrite run_probability_models_unfold, body_by_totals, E.
Qed.

(** C8, as the code has it.  The draws do not depend on the target.  For
    the totals drawn in a run, each sub-probability is 0 when the target
    is at least every total, 100 when the target is below every total,
    and less than 100 as soon as one total is at most the target.  Hence
    all three are 0 for every target from some bound on, and all three
    are 100 for every target below some bound; that bound is the least
    simulated total, which need not be positive. *)
Theorem sub_probabilities_in_target (hs as_ : Q) (league : string)
    (w w' : world) (mcs nbs pos : list Q) :
  draw_totals hs as_ league w = (Ok (mcs, nbs, pos), w') ->
  (forall target : Q, exists r,
     NPBKBO.run_probability_models (VFloat hs) (VFloat as_) target league w
       = (Ok r, w') /\
     exceed_law mcs target (NPBKBO.mc_prob r) /\
     exceed_law nbs target (NPBKBO.nb_prob r) /\
     exceed_law pos target (NPBKBO.poisson_prob r)) /\
  (exists T : Q, forall target : Q, T <= target -> exists r,
     NPBKBO.run_probability_models (VFloat hs) (VFloat as_) target league w
       = (Ok r, w') /\
     NPBKBO.mc_prob r == 0 /\ NPBKBO.nb_prob r == 0 /\
     NPBKBO.poisson_prob r == 0) /\
  (exists T : Q, forall target : Q, target < T -> exists r,
     NPBKBO.run_probability_models (VFloat hs) (VFloat as_) target league w
       = (Ok r, w') /\
     NPBKBO.mc_prob r == 100 /\ NPBKBO.nb_prob r == 100 /\
     NPBKBO.poisson_prob r == 100).
Proof.
  intros E.
  destruct (draw_totals_sizes _ _ _ _ _ _ _ _ E) as (S1 & S2 & S3).
  apply nonempty_of_size in S1, S2, S3.
  split; [| split].
  - intros target. eexists. split; [apply (run_on_totals _ _ _ _ _ _ _ E) |].
    simpl. repeat split; now apply exceed_percent_law.
  - exists (Qmax (upper_bound mcs) (Qmax (upper_bound nbs) (upper_bound pos))).
    intros target HT.
    eexists. split; [apply (run_on_totals _ _ _ _ _ _ _ E) |].
    simpl. repeat split; apply exceed_percent_none, upper_bound_spec.
    + eapply Qle_trans; [apply Q.le_max_l | exact HT].
    + eapply Qle_trans; [| exact HT].
      eapply Qle_trans; [apply Q.le_max_l | apply Q.le_max_r].
    + eapply Qle_trans; [| exact HT].
      eapply Qle_trans; [apply Q.le_max_r | apply Q.le_max_r].
  - exists (Qmin (lower_bound mcs) (Qmin (lower_bound nbs) (lower_bound pos))).
    intros target HT.
    eexists. split; [apply (run_on_totals _ _ _ _ _ _ _ E) |].
    simpl. repeat split; apply exceed_percent_all; trivial;
      apply lower_bound_spec.
    + eapply Qlt_le_trans; [exact HT | apply Q.le_min_l].
    + eapply Qlt_le_trans; [exact HT |].
      eapply Qle_trans; [apply Q.le_min_r | apply Q.le_min_l].
    + eapply Qlt_le_trans; [exact HT |].
      eapply Qle_trans; [apply Q.le_min_r | apply Q.le_min_r].
Qed.

End Limits.

(** C8 as stated fails at target 0: with both scores at the floor 0.1 the
    deterministic source draws totals equal to 0, which are not above the
    target, and no sub-probability is 100. *)
Lemma target_zero_not_certain :
  exists r w',
    NPBKBO.run_probability_models (RS := ToySource)
      (VFloat 0.1) (VFloat 0.1) 0 "NPB" toy_world = (Ok r, w') /\
    ~ NPBKBO.mc_prob r == 100 /\
    ~ NPBKBO.nb_prob r == 100 /\
    ~ NPBKBO.poisson_prob r == 100.
Proof.
  eexists; eexists. split.
  - vm_compute. reflexivity.
  - simpl. repeat split; intros H; vm_compute in H; discriminate.
Qed.

Lemma sub_probabilities_in_target_witness :
  exists (w' : world (RS := ToySource)) (T : Q),
  forall target : Q, T <= target -> exists r,
    NPBKBO.run_probability_models (RS := ToySource)
      (VFloat 4) (VFloat 4) target "NPB" toy_world = (Ok r, w') /\
    NPBKBO.mc_prob r == 0 /\ NPBKBO.nb_prob r == 0 /\
    NPBKBO.poisson_prob r == 0.
Proof.
  assert (H : is_ok (fst (draw_totals (RS := ToySource) 4 4 "NPB" toy_world))
              = true) by (vm_compute; reflexivity).
  destruct (draw_totals (RS := ToySource) 4 4 "NPB" toy_world)
    as [[[[mcs nbs] pos]|e] w'] eqn:E.
  - exists w'.
    exact (proj1 (proj2 (sub_probabilities_in_target (RS := ToySource)
                           4 4 "NPB" toy_world w' mcs nbs pos E))).
  - discriminate H.
Defined.

(** ** Failure of a sampler in the two front ends *)

(** C3 on one input.  Each side averages 1e20 runs, which both front ends
    accept as a non-negative float.  The full-mode scores are above
    [POISSON_LAM_MAX], so [np.random.poisson] raises [ValueError].  The
    console engine [run_probability_models] absorbs it and returns the
    neutral result; the form's [run_models] has no handler and the
    exception reaches its caller. *)
Theorem form_engine_propagates_failure :
  valid_team crowd_team /\
  (exists hs as_ : Q,
     fst (NPBKBO.calculate_scores (RS := ToySource)
            (dict_of crowd_team) (dict_of crowd_team) "NPB" true toy_world)
       = Ok (VFloat hs, VFloat as_) /\
     fst (NPBKBO.run_probability_models (RS := ToySource)
            (VFloat hs) (VFloat as_) 8.5 "NPB" toy_world)
       = Ok NPBKBO.neutral) /\
  fst (App.on_click (RS := ToySource)
         (dict_of crowd_team) (dict_of crowd_team) 8.5 "NPB" toy_world)
    = Raise ValueError.
Proof.
  split.
  { unfold valid_team, valid_pitcher, crowd_team; simpl.
    repeat split; discriminate. }
  pose (hs := Qmax 0.1 (raw_score 0.95 crowd_team (ts_pitcher crowd_team))).
  assert (H : match fst (draw_totals (RS := ToySource) hs hs "NPB" toy_world)
              with Raise ValueError => true | _ => false end = true)
    by (vm_compute; reflexivity).
  destruct (draw_totals (RS := ToySource) hs hs "NPB" toy_world)
    as [[d|[|]] w'] eqn:E; try discriminate H.
  split.
  - exists hs, hs. split; [reflexivity |].
    now rewrite (run_absorbs_draws _ _ 8.5 _ _ _ _ E).
  - unfold App.on_click, bind, lift.
    change (App.weighted_score (dict_of crowd_team)
              (pitcher (dict_of crowd_team))
              (if String.eqb "NPB" "NPB" then 0.95 else 1.05))
      with (Ok hs).
    cbv iota beta.
    now rewrite (run_models_propagates _ _ 8.5 _ _ _ _ E).
Qed.

(** ** The sentinel of [calculate_scores] *)

Section Sentinel.
Context {RS : RandomSource}.

Lemma calculate_scores_grows (home away : team_dict) (league : string)
    (include_effects : bool) (w : world) :
  exists v w' out,
    NPBKBO.calculate_scores home away league include_effects w = (Ok v, w') /\
    stdout w' = stdout w ++ out.
Proof.
  destruct (NPBKBO.calculate_scores_body home away league include_effects)
    as [[hs as_]|e] eqn:E.
  - rewrite (calculate_scores_returns _ _ _ _ w _ _ E).
    exists (VFloat hs, VFloat as_), w, []. now rewrite app_nil_r.
  - rewrite (calculate_scores_sentinel _ _ _ _ w _ E).
    eexists; eexists; eexists. split; reflexivity.
Qed.

Lemma run_probability_models_grows (home_score away_score : value)
    (target : Q) (league : string) (w : world) :
  exists r w' out,
    NPBKBO.run_probability_models home_score away_score target league w
      = (Ok r, w') /\
    stdout w' = stdout w ++ out.
Proof.
  rewrite run_probability_models_unfold.
  pose proof (body_stdout home_score away_score target league w) as S.
  destruct (NPBKBO.run_probability_models_body home_score away_score
              target league w) as [[r|e] w']; simpl in S.
  - exists r, w', []. now rewrite app_nil_r.
  - eexists; eexists; eexists. split; [reflexivity |]. simpl. now rewrite S.
Qed.

Lemma run_on_sentinel (target : Q) (league : string) (w : world) :
  NPBKBO.run_probability_models VNone VNone target league w
  = (Ok NPBKBO.neutral,
     mkWorld RS (rng w) (stdout w ++ [SimulationError TypeError])).
Proof. reflexivity. Qed.

(** When the score computation raises, [calculate_scores] prints one
    line and returns the pair [(None, None)].  The analysis steps of
    [main] do not look at the pair: they pass it to
    [run_probability_models], whose arithmetic on [None] raises
    [TypeError]; the engine prints its own line and returns the neutral
    result. *)
Theorem sentinel_reaches_engine (home away : team_dict) (league : string)
    (target : Q) (w : world) (e : exn) :
  NPBKBO.calculate_scores_body home away league true = Raise e ->
  NPBKBO.calculate_scores home away league true w
    = (Ok (VNone, VNone), mkWorld RS (rng w) (stdout w ++ [ScoreError e])) /\
  exists base w' rest,
    NPBKBO.main_analysis home away league target w
      = (Ok ((VNone, VNone, NPBKBO.neutral), base), w') /\
    stdout w'
      = stdout w ++ ScoreError e :: SimulationError TypeError :: rest.
Proof.
  intros E. split; [now apply calculate_scores_sentinel |].
  unfold NPBKBO.main_analysis, bind.
  rewrite (calculate_scores_sentinel _ _ _ _ w _ E).
  cbv beta iota. simpl fst. simpl snd.
  rewrite run_on_sentinel. cbv beta iota.
  set (w2 := mkWorld RS _ _).
  destruct (calculate_scores_grows home away league false w2)
    as (v & w3 & out3 & E3 & S3).
  rewrite E3.
  destruct (run_probability_models_grows (fst v) (snd v) target league w3)
    as (r & w4 & out4 & E4 & S4).
  rewrite E4. unfold ret.
  eexists; eexists; exists (out3 ++ out4). split; [reflexivity |].
  rewrite S4, S3. subst w2. simpl.
  now rewrite <- !app_assoc.
Qed.

(** C10. Both functions only test whether the league is ["NPB"]: for two
    league strings that differ from it, the scores, the model result, the
    printed lines and the generator state after the call are the same,
    and they are those of ["KBO"].  The same for the form's
    [run_models]. *)
Theorem non_npb_leagues_alike (l1 l2 : string) (home away : team_dict)
    (include_effects : bool) (home_score away_score : value)
    (hs as_ target : Q) (w : world) :
  String.eqb l1 "NPB" = false ->
  String.eqb l2 "NPB" = false ->
  NPBKBO.calculate_scores home away l1 include_effects w
    = NPBKBO.calculate_scores home away l2 include_effects w /\
  NPBKBO.run_probability_models home_score away_score target l1 w
    = NPBKBO.run_probability_models home_score away_score target l2 w /\
  App.run_models hs as_ target l1 w = App.run_models hs as_ target l2 w /\
  NPBKBO.calculate_scores home away l1 include_effects w
    = NPBKBO.calculate_scores home away "KBO" include_effects w /\
  NPBKBO.run_probability_models home_score away_score target l1 w
    = NPBKBO.run_probability_models home_score away_score target "KBO" w /\
  App.run_models hs as_ target l1 w = App.run_models hs as_ target "KBO" w.
Proof.
  intros H1 H2.
  unfold NPBKBO.calculate_scores, NPBKBO.calculate_scores_body,
    NPBKBO.run_probability_models, NPBKBO.run_probability_models_body,
    App.run_models.
  rewrite H1, H2.
  change (String.eqb "KBO" "NPB") with false.
  repeat split; reflexivity.
Qed.

End Sentinel.


Lemma sentinel_reaches_engine_witness :
  exists base w' rest,
    NPBKBO.main_analysis (RS := ToySource)
      broken_team (dict_of sample_team) "KBO" 8.5 toy_world
      = (Ok ((VNone, VNone, NPBKBO.neutral), base), w') /\
    stdout w'
      = stdout toy_world
        ++ ScoreError TypeError :: SimulationError TypeError :: rest.
Proof.
  exact (proj2 (sentinel_reaches_engine (RS := ToySource)
                  broken_team (dict_of sample_team) "KBO" 8.5 toy_world
                  TypeError eq_refl)).
Defined.

Lemma non_npb_leagues_alike_witness :
  NPBKBO.calculate_scores (RS := ToySource)
    (dict_of sample_team) (dict_of sample_team_hot) "kbo" true toy_world
  = NPBKBO.calculate_scores (RS := ToySource)
      (dict_of sample_team) (dict_of sample_team_hot) "" true toy_world.
Proof.
  exact (proj1 (non_npb_leagues_alike (RS := ToySource) "kbo" ""
                  (dict_of sample_team) (dict_of sample_team_hot) true
                  (VFloat 4) (VFloat 4) 4 4 8.5 toy_world
                  eq_refl eq_refl)).
Defined.

(** ** The recommendation *)

Lemma Qle_bool_false (x y : Q) : Qle_bool x y = false -> y < x.
Proof.
  intros H. apply Qnot_le_lt. intros L.
  apply Qle_bool_iff in L. congruence.
Qed.

Ltac decide_thresholds :=
  repeat match goal with
  | H : Qle_bool _ _ = true |- _ => apply Qle_bool_iff in H
  | H : Qle_bool _ _ = false |- _ => apply Qle_bool_false in H
  end.



(** C7, as the code has it.  At 70.0 and at 30.0 the strength is 20, the
    top threshold: the rating is 5.0, with the strongest over label
    showing 70.0% and the strongest under label showing 70.0%. *)
Theorem recommendation_at_70_and_30 :
  NPBKBO.get_star_recommendation (VFloat 70.0)
    = (5.0, "🔥 極強力推薦大分 (概率:70.0%)"%string) /\
  NPBKBO.get_star_recommendation (VFloat 30.0)
    = (5.0, "🔥 極強力推薦小分 (概率:70.0%)"%string).
Proof. split; reflexivity. Qed.

(** C7 as stated fails: neither rating is 4.0. *)
Lemma rating_at_70_and_30_not_4 :
  ~ fst (NPBKBO.get_star_recommendation (VFloat 70.0)) == 4.0 /\
  ~ fst (NPBKBO.get_star_recommendation (VFloat 30.0)) == 4.0.
Proof. split; intros H; vm_compute in H; discriminate. Qed.

(** * Further properties *)

(** ** The engine: ranges, the target, the arguments of the samplers *)

Lemma blend_percentage (league : string) (mc nb po : Q) :
  percentage mc -> percentage nb -> percentage po ->
  percentage (blend league mc nb po).
Proof.
  unfold percentage, blend. intros H1 H2 H3.
  destruct (String.eqb league "NPB"); lra.
Qed.

Lemma models_of_totals_percentages (league : string) (target : Q)
    (d : list Q * list Q * list Q) :
  let r := models_of_totals league target d in
  percentage (NPBKBO.mc_prob r) /\ percentage (NPBKBO.nb_prob r) /\
  percentage (NPBKBO.poisson_prob r) /\ percentage (NPBKBO.final_prob r).
Proof.
  simpl. repeat split; try apply exceed_percent_bounds;
    apply blend_percentage; apply exceed_percent_bounds.
Qed.

Section MoreEngine.
Context {RS : RandomSource}.

(** X1. Every result of [run_probability_models] holds four percentages:
    each of the three model probabilities and the blend is between 0 and
    100, whatever the scores (the sentinel included), the target, the
    league and the draws.  So does every tuple that [run_models]
    returns. *)
Theorem probabilities_are_percentages (home_score away_score : value)
    (hs as_ target : Q) (league : string) (w : world) :
  (exists r w',
     NPBKBO.run_probability_models home_score away_score target league w
       = (Ok r, w') /\
     percentage (NPBKBO.mc_prob r) /\ percentage (NPBKBO.nb_prob r) /\
     percentage (NPBKBO.poisson_prob r) /\
     percentage (NPBKBO.final_prob r)) /\
  match fst (App.run_models hs as_ target league w) with
  | Ok (mc, nb, poisson, final) =>
      percentage mc /\ percentage nb /\ percentage poisson /\
      percentage final
  | Raise _ => True
  end.
Proof.
  split.
  - destruct (run_probability_models_total home_score away_score target
                league w) as (r & w' & E & [->|[d ->]]);
      eexists; eexists; (split; [exact E |]).
    + unfold percentage; simpl. repeat split; discriminate.
    + apply models_of_totals_percentages.
  - rewrite run_models_by_totals.
    destruct (draw_totals hs as_ league w) as [[d|e] w']; simpl;
      [apply (models_of_totals_percentages league target d) | exact I].
Qed.

End MoreEngine.

(** ** The target *)

Lemma count_true_antitone (totals : list Q) (t1 t2 : Q) :
  t1 <= t2 ->
  (count_true (array_gt totals t2) <= count_true (array_gt totals t1))%Z.
Proof.
  intros H. induction totals as [|x l IH]; simpl.
  - lia.
  - destruct (gtb x t2) eqn:E2.
    + apply gtb_true_iff in E2.
      assert (E1 : gtb x t1 = true)
        by (apply gtb_true_iff; apply Qle_lt_trans with t2; assumption).
      rewrite E1. lia.
    + destruct (gtb x t1); lia.
Qed.

Lemma Qinv_nonneg (x : Q) : 0 <= x -> 0 <= / x.
Proof. apply Qinv_le_0_compat. Qed.

Lemma exceed_percent_antitone (totals : list Q) (t1 t2 : Q) :
  t1 <= t2 -> exceed_percent totals t2 <= exceed_percent totals t1.
Proof.
  intros H. unfold exceed_percent, np_mean. rewrite !array_gt_length.
  apply Qmult_le_compat_r; [| discriminate].
  unfold Qdiv. apply Qmult_le_compat_r.
  - rewrite <- Zle_Qle. now apply count_true_antitone.
  - apply Qinv_nonneg. change 0 with (inject_Z 0).
    rewrite <- Zle_Qle. lia.
Qed.

Lemma blend_monotone (league : string) (mc nb po mc' nb' po' : Q) :
  mc <= mc' -> nb <= nb' -> po <= po' ->
  blend league mc nb po <= blend league mc' nb' po'.
Proof.
  unfold blend. intros H1 H2 H3.
  destruct (String.eqb league "NPB"); lra.
Qed.

Section Target.
Context {RS : RandomSource}.

(** X2. From one state of the random source, a higher target never gives
    a higher probability: each of the three model probabilities and the
    blend at the higher target is at most the one at the lower target, and
    both runs leave the random source in the same state. *)
Theorem higher_target_lower_probability (home_score away_score : value)
    (t1 t2 : Q) (league : string) (w : world) :
  t1 <= t2 ->
  exists r1 r2 w1 w2,
    NPBKBO.run_probability_models home_score away_score t1 league w
      = (Ok r1, w1) /\
    NPBKBO.run_probability_models home_score away_score t2 league w
      = (Ok r2, w2) /\
    rng w1 = rng w2 /\
    NPBKBO.mc_prob r2 <= NPBKBO.mc_prob r1 /\
    NPBKBO.nb_prob r2 <= NPBKBO.nb_prob r1 /\
    NPBKBO.poisson_prob r2 <= NPBKBO.poisson_prob r1 /\
    NPBKBO.final_prob r2 <= NPBKBO.final_prob r1.
Proof.
  intros H. rewrite !run_probability_models_unfold.
  destruct home_score as [hs|]; [destruct away_score as [as_|] |].
  - rewrite !body_by_totals.
    destruct (draw_totals hs as_ league w) as [[d|e] w'].
    + do 4 eexists. split; [reflexivity |]. split; [reflexivity |].
      split; [reflexivity |]. simpl.
      repeat split; try (now apply exceed_percent_antitone).
      apply blend_monotone; now apply exceed_percent_antitone.
    + do 4 eexists. split; [reflexivity |]. split; [reflexivity |].
      simpl. repeat split; discriminate.
  - rewrite !body_rejects_none_away.
    do 4 eexists. split; [reflexivity |]. split; [reflexivity |].
    simpl. repeat split; discriminate.
  - rewrite !body_rejects_none_home.
    do 4 eexists. split; [reflexivity |]. split; [reflexivity |].
    simpl. repeat split; discriminate.
Qed.

End Target.

Lemma higher_target_lower_probability_witness :
  exists r1 r2 w1 w2,
    NPBKBO.run_probability_models (RS := ToySource)
      (VFloat 4) (VFloat 4) 7.5 "NPB" toy_world = (Ok r1, w1) /\
    NPBKBO.run_probability_models (RS := ToySource)
      (VFloat 4) (VFloat 4) 8.5 "NPB" toy_world = (Ok r2, w2) /\
    rng w1 = rng w2 /\
    NPBKBO.mc_prob r2 <= NPBKBO.mc_prob r1 /\
    NPBKBO.nb_prob r2 <= NPBKBO.nb_prob r1 /\
    NPBKBO.poisson_prob r2 <= NPBKBO.poisson_prob r1 /\
    NPBKBO.final_prob r2 <= NPBKBO.final_prob r1.
Proof.
  apply (higher_target_lower_probability (RS := ToySource)
           (VFloat 4) (VFloat 4) 7.5 8.5 "NPB" toy_world).
  discriminate.
Defined.

(** ** The arguments that reach the samplers *)

Lemma league_std_pos (league : string) :
  0 < (if String.eqb league "NPB" then NPB_STD_DEV else KBO_STD_DEV).
Proof. destruct (String.eqb league "NPB"); reflexivity. Qed.

Lemma league_r_large (league : string) :
  7.5 <= (if String.eqb league "NPB" then NPB_NB_R else KBO_NB_R).
Proof. destruct (String.eqb league "NPB"); discriminate. Qed.

Lemma share_nonneg (x y : Q) : 0 <= x -> 0 <= x / Qmax 0.1 y.
Proof.
  intros H. unfold Qdiv. apply Qmult_nonneg; [exact H |].
  apply Qlt_le_weak, Qinv_pos, Qmax_floor_pos. reflexivity.
Qed.

Lemma std_split_nonneg (std x y : Q) :
  0 < std -> 0 <= x -> 0 <= std * (x / Qmax 0.1 y).
Proof.
  intros Hs Hx. apply Qmult_nonneg; [lra | now apply share_nonneg].
Qed.

Lemma nb_probability (r mean : Q) :
  7.5 <= r -> 0 <= mean ->
  let p := r / Qmax 0.1 (r + mean) in
  0 < p <= 1 /\ r * (1 - p) / p == mean.
Proof.
  intros Hr Hm. simpl.
  assert (H : 0.1 <= r + mean) by lra.
  rewrite (Q.max_r _ _ H).
  assert (Hpos : 0 < r + mean) by lra.
  repeat split.
  - apply Qlt_shift_div_l; [exact Hpos | lra].
  - apply Qle_shift_div_r; [exact Hpos | lra].
  - field. split; lra.
Qed.

Ltac sampler_returns D :=
  match goal with
  | |- context [np_random_normal ?a ?b ?c ?g] =>
      let E := fresh "E" in
      let H := fresh "H" in
      assert (H : is_ok (fst (np_random_normal a b c g)) = true)
        by (apply D; auto);
      destruct (np_random_normal a b c g) as [[?|?] ?] eqn:E;
      [clear H E | discriminate H]
  | |- context [nbinom_rvs ?a ?b ?c ?g] =>
      let E := fresh "E" in
      let H := fresh "H" in
      assert (H : is_ok (fst (nbinom_rvs a b c g)) = true)
        by (apply D; auto);
      destruct (nbinom_rvs a b c g) as [[?|?] ?] eqn:E;
      [clear H E | discriminate H]
  | |- context [np_random_poisson ?a ?c ?g] =>
      let E := fresh "E" in
      let H := fresh "H" in
      assert (H : is_ok (fst (np_random_poisson a c g)) = true)
        by (apply D; auto);
      destruct (np_random_poisson a c g) as [[?|?] ?] eqn:E;
      [clear H E | discriminate H]
  end; simpl.

Section Domain.
Context {RS : RandomSource}.

Lemma draw_totals_returns (hs as_ : Q) (league : string) (w : world) :
  library_domain RS ->
  0 <= hs <= POISSON_LAM_MAX ->
  0 <= as_ <= POISSON_LAM_MAX ->
  is_ok (fst (draw_totals hs as_ league w)) = true.
Proof.
  intros (DN & DB & DP) Hh Ha.
  pose proof (league_std_pos league) as Hstd.
  pose proof (league_r_large league) as Hr.
  assert (Hr0 : 0 < (if String.eqb league "NPB" then NPB_NB_R
                     else KBO_NB_R)) by lra.
  pose proof (std_split_nonneg _ hs (hs + as_) Hstd (proj1 Hh)) as S1.
  pose proof (std_split_nonneg _ as_ (hs + as_) Hstd (proj1 Ha)) as S2.
  pose proof (proj1 (nb_probability _ hs Hr (proj1 Hh))) as P1.
  pose proof (proj1 (nb_probability _ as_ Hr (proj1 Ha))) as P2.
  simpl in P1, P2.
  unfold draw_totals, bind, ret, sample; simpl.
  sampler_returns DN. sampler_returns DN.
  sampler_returns DB. sampler_returns DB.
  sampler_returns DP. sampler_returns DP.
  reflexivity.
Qed.

(** X3. With samplers that return on the arguments of their documented
    domain, the engine never falls back to the neutral result for scores
    between 0 and [POISSON_LAM_MAX]: the floors of the source keep every
    scale non-negative and every negative-binomial probability in
    [(0, 1]], so [run_probability_models] returns what the three models
    compute from the draws and prints nothing, and [run_models] returns
    the same four numbers instead of raising. *)
Theorem engine_runs_on_valid_scores (hs as_ target : Q) (league : string)
    (w : world) :
  library_domain RS ->
  0 <= hs <= POISSON_LAM_MAX ->
  0 <= as_ <= POISSON_LAM_MAX ->
  exists d w',
    NPBKBO.run_probability_models (VFloat hs) (VFloat as_) target league w
      = (Ok (models_of_totals league target d), w') /\
    stdout w' = stdout w /\
    App.run_models hs as_ target league w
      = (Ok (NPBKBO.mc_prob (models_of_totals league target d),
             NPBKBO.nb_prob (models_of_totals league target d),
             NPBKBO.poisson_prob (models_of_totals league target d),
             NPBKBO.final_prob (models_of_totals league target d)), w').
Proof.
  intros D Hh Ha.
  pose proof (draw_totals_returns hs as_ league w D Hh Ha) as R.
  pose proof (draw_totals_stdout hs as_ league w) as S.
  destruct (draw_totals hs as_ league w) as [[d|e] w'] eqn:E;
    [| discriminate R].
  exists d, w'. split; [now apply run_on_totals |].
  split; [exact S |].
  now rewrite run_models_by_totals, E.
Qed.

End Domain.

Lemma toy_source_domain : library_domain ToySource.
Proof.
  unfold library_domain; simpl. repeat split.
  - intros loc scale n g H. unfold toy_normal.
    apply Qle_bool_iff in H. now rewrite H.
  - intros r p n g Hr [Hp0 Hp1]. unfold toy_nbinom.
    assert (E1 : Qle_bool r 0 = false).
    { destruct (Qle_bool r 0) eqn:E; [| reflexivity].
      apply Qle_bool_iff in E. lra. }
    assert (E2 : Qle_bool p 0 = false).
    { destruct (Qle_bool p 0) eqn:E; [| reflexivity].
      apply Qle_bool_iff in E. lra. }
    apply Qle_bool_iff in Hp1. now rewrite E1, E2, Hp1.
  - intros lam n g [H0 H1]. unfold toy_poisson.
    apply Qle_bool_iff in H0, H1. now rewrite H0, H1.
Qed.

Lemma engine_runs_on_valid_scores_witness :
  exists d w',
    NPBKBO.run_probability_models (RS := ToySource)
      (VFloat 4.1) (VFloat 3.9) 8.5 "KBO" toy_world
      = (Ok (models_of_totals "KBO" 8.5 d), w') /\
    stdout w' = stdout toy_world /\
    App.run_models (RS := ToySource) 4.1 3.9 8.5 "KBO" toy_world
      = (Ok (NPBKBO.mc_prob (models_of_totals "KBO" 8.5 d),
             NPBKBO.nb_prob (models_of_totals "KBO" 8.5 d),
             NPBKBO.poisson_prob (models_of_totals "KBO" 8.5 d),
             NPBKBO.final_prob (models_of_totals "KBO" 8.5 d)), w').
Proof.
  apply (engine_runs_on_valid_scores (RS := ToySource)
           4.1 3.9 8.5 "KBO" toy_world toy_source_domain);
    split; discriminate.
Defined.




(** ** The scores: the two sides, the two leagues, the pitcher *)

Ltac read_fields :=
  repeat match goal with
  | |- context [as_float ?v] =>
      destruct v; cbn [as_float rbind]; eauto
  end.

Lemma weighted_score_raises_type_error (lf : Q) (data : team_dict)
    (opp : pitcher_dict) :
  (exists q, NPBKBO.weighted_score lf data opp = Ok q) \/
  NPBKBO.weighted_score lf data opp = Raise TypeError.
Proof. unfold NPBKBO.weighted_score. read_fields. Qed.

Lemma calculate_scores_body_swap (home away : team_dict) (league : string)
    (include_effects : bool) :
  NPBKBO.calculate_scores_body away home league include_effects
  = match NPBKBO.calculate_scores_body home away league include_effects with
    | Ok p => Ok (swap p)
    | Raise e => Raise e
    end.
Proof.
  unfold NPBKBO.calculate_scores_body. destruct include_effects.
  - destruct (weighted_score_raises_type_error
                (if String.eqb league "NPB" then 0.95 else 1.05)
                home (pitcher away)) as [[q1 E1]|E1];
    destruct (weighted_score_raises_type_error
                (if String.eqb league "NPB" then 0.95 else 1.05)
                away (pitcher home)) as [[q2 E2]|E2];
    rewrite E1, E2; reflexivity.
  - read_fields.
Qed.

Section Sides.
Context {RS : RandomSource}.

(** X5. [calculate_scores] treats the two sides alike: with the two teams
    exchanged it returns the two scores exchanged, and the sentinel pair
    stays the sentinel pair, in both modes.  Neither call touches the
    random source.  When the scores are floats neither call prints; when
    they are the sentinel each call prints one line. *)
Theorem calculate_scores_exchange (home away : team_dict) (league : string)
    (include_effects : bool) (w : world) :
  exists p w1 w2,
    NPBKBO.calculate_scores home away league include_effects w
      = (Ok p, w1) /\
    NPBKBO.calculate_scores away home league include_effects w
      = (Ok (swap p), w2) /\
    rng w1 = rng w /\ rng w2 = rng w /\
    length (stdout w1) = length (stdout w2) /\
    (forall hs as_ : Q, p = (VFloat hs, VFloat as_) -> w1 = w /\ w2 = w).
Proof.
  unfold NPBKBO.calculate_scores, try_except, bind, lift, ret, print.
  rewrite (calculate_scores_body_swap home away).
  destruct (NPBKBO.calculate_scores_body home away league include_effects)
    as [[hs as_]|e]; do 3 eexists;
    (split; [reflexivity |]); (split; [reflexivity |]);
    repeat split; try reflexivity; discriminate.
Qed.

End Sides.

Lemma raw_score_split (lf : Q) (t : TeamStat) (opp : Pitcher) :
  raw_score lf t opp
  == unopposed_score lf t *
     (1.0 / Qmax 0.1 (pitcher_factor (p_era opp) (p_baa opp))).
Proof. unfold raw_score, unopposed_score, Qdiv. ring. Qed.

Lemma unopposed_score_league (lf : Q) (t : TeamStat) :
  unopposed_score lf t == lf * unopposed_score 1 t.
Proof. unfold unopposed_score, Qdiv. ring. Qed.

Lemma unopposed_score_nonneg (lf : Q) (t : TeamStat) :
  0 <= lf -> valid_team t -> 0 <= unopposed_score lf t.
Proof.
  intros Hlf (Ht & Hb & Ha & [Ho _] & [Htb _] & [Hob _] & _).
  unfold unopposed_score.
  apply Qmult_nonneg; [apply Qmult_nonneg; [apply Qmult_nonneg |] |];
    try lra.
  apply (offense_factor_monotone _ _ _ _ Htb Hob (Qle_refl _) (Qle_refl _)).
Qed.

Lemma pitcher_multiplier_bounds (e b : Q) :
  0.5 <= 1.0 / Qmax 0.1 (pitcher_factor e b) <= 10.
Proof.
  assert (Hpos : 0 < Qmax 0.1 (pitcher_factor e b))
    by (apply Qmax_floor_pos; reflexivity).
  split.
  - apply Qle_shift_div_l; [exact Hpos |].
    assert (Qmax 0.1 (pitcher_factor e b) <= 2.0).
    { apply Q.max_lub; [discriminate |].
      unfold pitcher_factor. apply Q.le_min_l. }
    lra.
  - apply Qle_shift_div_r; [exact Hpos |].
    pose proof (Q.le_max_l 0.1 (pitcher_factor e b)). lra.
Qed.

(** X6. The league multiplier orders the two leagues: for valid teams
    every score computed for a league other than NPB is at least the
    score computed for NPB, in full and in baseline mode. *)
Theorem other_league_scores_higher (home away : TeamStat) (league : string)
    (include_effects : bool) :
  valid_team home -> valid_team away ->
  String.eqb league "NPB" = false ->
  exists n1 n2 k1 k2 : Q,
    NPBKBO.calculate_scores_body (dict_of home) (dict_of away) "NPB"
      include_effects = Ok (n1, n2) /\
    NPBKBO.calculate_scores_body (dict_of home) (dict_of away) league
      include_effects = Ok (k1, k2) /\
    n1 <= k1 /\ n2 <= k2.
Proof.
  intros Vh Va L. destruct include_effects.
  - do 4 eexists.
    split; [apply calculate_scores_body_full |].
    split; [apply calculate_scores_body_full |].
    unfold spec_league_multiplier. rewrite L.
    change (String.eqb "NPB" "NPB") with true. cbv iota.
    split;
      apply Q.max_le_compat_l; rewrite !raw_score_split;
      (apply Qmult_le_compat_r;
         [| apply Qlt_le_weak, pitcher_reciprocal_pos]);
      rewrite (unopposed_score_league 0.95), (unopposed_score_league 1.05).
    + pose proof (unopposed_score_nonneg 1 home
                    ltac:(discriminate) Vh). lra.
    + pose proof (unopposed_score_nonneg 1 away
                    ltac:(discriminate) Va). lra.
  - do 4 eexists.
    split; [apply calculate_scores_body_baseline |].
    split; [apply calculate_scores_body_baseline |].
    unfold spec_league_multiplier. rewrite L.
    change (String.eqb "NPB" "NPB") with true. cbv iota.
    destruct Vh as (Ht & Hb & _), Va as (Ht' & Hb' & _).
    split; lra.
Qed.

Lemma other_league_scores_higher_witness :
  exists n1 n2 k1 k2 : Q,
    NPBKBO.calculate_scores_body (dict_of sample_team)
      (dict_of sample_team_hot) "NPB" false = Ok (n1, n2) /\
    NPBKBO.calculate_scores_body (dict_of sample_team)
      (dict_of sample_team_hot) "KBO" false = Ok (k1, k2) /\
    n1 <= k1 /\ n2 <= k2.
Proof.
  apply (other_league_scores_higher sample_team sample_team_hot "KBO" false
           sample_team_valid).
  - unfold valid_team, valid_pitcher, sample_team_hot; simpl.
    repeat split; discriminate.
  - reflexivity.
Defined.

Lemma pitcher_factor_capped (e b : Q) :
  e <= 1.575 \/ b <= 0.045 -> pitcher_factor e b = 2.0.
Proof.
  intros H. unfold pitcher_factor.
  set (x := 4.5 / Qmax 0.01 e * 0.7 + 0.3 / Qmax 0.001 b * 0.3).
  assert (Hx : 2.0 <= x).
  { subst x.
    assert (He : 0 <= 4.5 / Qmax 0.01 e)
      by (apply Qlt_le_weak, Qlt_shift_div_l; [apply Qmax_floor_pos; reflexivity | reflexivity]).
    assert (Hb : 0 <= 0.3 / Qmax 0.001 b)
      by (apply Qlt_le_weak, Qlt_shift_div_l; [apply Qmax_floor_pos; reflexivity | reflexivity]).
    destruct H as [H|H].
    - assert (2.0 <= 4.5 / Qmax 0.01 e * 0.7); [| lra].
      assert (L : 4.5 / 1.575 <= 4.5 / Qmax 0.01 e).
      { apply Qdiv_antitone; [discriminate | |].
        + apply Qmax_floor_pos; reflexivity.
        + apply Q.max_lub; [discriminate | exact H]. }
      assert (C : (20 # 7) <= 4.5 / 1.575) by discriminate.
      pose proof (Qle_trans _ _ _ C L). lra.
    - assert (2.0 <= 0.3 / Qmax 0.001 b * 0.3); [| lra].
      assert (L : 0.3 / 0.045 <= 0.3 / Qmax 0.001 b).
      { apply Qdiv_antitone; [discriminate | |].
        + apply Qmax_floor_pos; reflexivity.
        + apply Q.max_lub; [discriminate | exact H]. }
      assert (C : (20 # 3) <= 0.3 / 0.045) by discriminate.
      pose proof (Qle_trans _ _ _ C L). lra. }
  unfold Qmin, GenericMinMax.gmin.
  destruct (2.0 ?= x) eqn:E; try reflexivity.
  exfalso. apply Qgt_alt in E. lra.
Qed.

(** X7. The pitcher factor is capped at 2.0, and the cap is reached as
    soon as the opposing pitcher's era is at most 1.575 or his baa at
    most 0.045: all such pitchers give the batting side the same score,
    whatever their other number.  Both front ends. *)
Theorem strong_pitchers_alike (lf : Q) (t : TeamStat) (o1 o2 : Pitcher) :
  p_era o1 <= 1.575 \/ p_baa o1 <= 0.045 ->
  p_era o2 <= 1.575 \/ p_baa o2 <= 0.045 ->
  NPBKBO.weighted_score lf (dict_of t) (pitcher_of o1)
    = NPBKBO.weighted_score lf (dict_of t) (pitcher_of o2) /\
  App.weighted_score (dict_of t) (pitcher_of o1) lf
    = App.weighted_score (dict_of t) (pitcher_of o2) lf /\
  NPBKBO.weighted_score lf (dict_of t) (pitcher_of o1)
    = Ok (Qmax 0.1 (raw_score lf t o1)) /\
  raw_score lf t o1 == unopposed_score lf t / 2.
Proof.
  intros H1 H2.
  rewrite !app_weighted_score_same, !weighted_score_numeric.
  assert (E : raw_score lf t o1 = raw_score lf t o2).
  { unfold raw_score.
    now rewrite (pitcher_factor_capped _ _ H1),
                (pitcher_factor_capped _ _ H2). }
  rewrite E. repeat split.
  rewrite <- E, raw_score_split, (pitcher_factor_capped _ _ H1).
  assert (C : 1.0 / Qmax 0.1 2.0 == 1 # 2) by reflexivity.
  rewrite C. unfold Qdiv. change (/ 2) with (1 # 2). ring.
Qed.

Lemma strong_pitchers_alike_witness :
  NPBKBO.weighted_score 0.95 (dict_of sample_team)
    (pitcher_of (mkPitcherStat 1.2 0.300))
  = NPBKBO.weighted_score 0.95 (dict_of sample_team)
      (pitcher_of (mkPitcherStat 3.9 0.040)).
Proof.
  apply (strong_pitchers_alike 0.95 sample_team
           (mkPitcherStat 1.2 0.300) (mkPitcherStat 3.9 0.040)).
  - left; discriminate.
  - right; discriminate.
Defined.

(** X8. The opposing pitcher enters the full-mode score of a valid side
    as a multiplier between 0.5 and 10: the score lies between the score
    that the multiplier 0.5 would give and the score that the multiplier
    10 would give, all else equal. *)
Theorem pitcher_effect_bounded (league : string) (t : TeamStat)
    (opp : Pitcher) :
  valid_team t ->
  exists s : Q,
    NPBKBO.weighted_score (spec_league_multiplier league)
      (dict_of t) (pitcher_of opp) = Ok s /\
    score_with_multiplier (spec_league_multiplier league) t 0.5 <= s /\
    s <= score_with_multiplier (spec_league_multiplier league) t 10.
Proof.
  intros V. eexists. split; [apply weighted_score_numeric |].
  destruct V as (Ht & Hb & Ha & [Ho _] & [Htb _] & [Hob _] & _).
  pose proof (Qlt_le_weak _ _ (league_factor_pos league)) as Hlf.
  fold (spec_league_multiplier league) in Hlf.
  destruct (pitcher_multiplier_bounds (p_era opp) (p_baa opp)) as [L U].
  pose proof (offense_factor_monotone _ _ _ _ Htb Hob
                (Qle_refl _) (Qle_refl _)) as [O _].
  assert (A : 0 <= (ts_time_avg t * 0.5 + ts_base_avg t * 0.3
                    + ts_allow t * 0.2)
                   * spec_league_multiplier league
                   * (0.8 + 0.2 * ts_over_rate t)).
  { apply Qmult_nonneg; [apply Qmult_nonneg |]; lra. }
  unfold score_with_multiplier, raw_score.
  split; apply Q.max_le_compat_l;
    (apply Qmult_le_compat_r; [| exact O]);
    rewrite !(Qmult_comm (_ * (0.8 + 0.2 * ts_over_rate t)));
    now apply Qmult_le_compat_r.
Qed.

Lemma pitcher_effect_bounded_witness :
  exists s : Q,
    NPBKBO.weighted_score (spec_league_multiplier "KBO")
      (dict_of sample_team) (pitcher_of (mkPitcherStat 5.5 0.290)) = Ok s /\
    score_with_multiplier (spec_league_multiplier "KBO") sample_team 0.5
      <= s /\
    s <= score_with_multiplier (spec_league_multiplier "KBO") sample_team 10.
Proof.
  exact (pitcher_effect_bounded "KBO" sample_team (mkPitcherStat 5.5 0.290)
           sample_team_valid).
Defined.

(** ** The recommendation: mirror, distance, the form, the stars *)

Lemma rating_by_tier (prob : Q) :
  fst (NPBKBO.get_star_recommendation (VFloat prob))
  = rating_tier (strength_of prob).
Proof.
  unfold NPBKBO.get_star_recommendation,
    NPBKBO.get_star_recommendation_body, rating_tier, strength_of; simpl.
  destruct (Qle_bool 50 prob).
  - destruct (Qle_bool 20 (prob - 50)); [reflexivity |].
    destruct (Qle_bool 10 (prob - 50)); [reflexivity |].
    destruct (Qle_bool 5 (prob - 50)); reflexivity.
  - destruct (Qle_bool 20 (50 - prob)); [reflexivity |].
    destruct (Qle_bool 10 (50 - prob)); [reflexivity |].
    destruct (Qle_bool 5 (50 - prob)); reflexivity.
Qed.

Lemma strength_is_distance (prob : Q) : strength_of prob == Qabs (prob - 50).
Proof.
  unfold strength_of. destruct (Qle_bool 50 prob) eqn:E.
  - apply Qle_bool_iff in E. rewrite Qabs_pos; [reflexivity | lra].
  - apply Qle_bool_false in E. rewrite Qabs_neg; [ring | lra].
Qed.

Lemma rating_tier_monotone (s s' : Q) :
  s <= s' -> rating_tier s <= rating_tier s'.
Proof.
  intros H. unfold rating_tier.
  destruct (Qle_bool 20 s) eqn:A20; destruct (Qle_bool 20 s') eqn:B20;
  destruct (Qle_bool 10 s) eqn:A10; destruct (Qle_bool 10 s') eqn:B10;
  destruct (Qle_bool 5 s) eqn:A5; destruct (Qle_bool 5 s') eqn:B5;
    decide_thresholds; try discriminate; lra.
Qed.





(** X10. The rating depends only on the distance of the probability from
    50 and never decreases with it: a probability at least as far from 50
    as another one is rated at least as high. *)
Theorem rating_grows_with_distance (p q : Q) :
  Qabs (p - 50) <= Qabs (q - 50) ->
  fst (NPBKBO.get_star_recommendation (VFloat p))
  <= fst (NPBKBO.get_star_recommendation (VFloat q)).
Proof.
  intros H. rewrite !rating_by_tier. apply rating_tier_monotone.
  now rewrite !strength_is_distance.
Qed.

Lemma rating_grows_with_distance_witness :
  fst (NPBKBO.get_star_recommendation (VFloat 57))
  <= fst (NPBKBO.get_star_recommendation (VFloat 38)).
Proof. apply (rating_grows_with_distance 57 38). discriminate. Defined.

(** X11. The two front ends agree on one probability.  The form calls a
    toss-up exactly when the console rates 3.0; it favours the over
    exactly when the console recommends the over with a rating of at
    least 3.5, and the under exactly when the console recommends the
    under with a rating of at least 3.5. *)
Theorem form_advice_matches_rating (final : Q) :
  let rating := fst (NPBKBO.get_star_recommendation (VFloat final)) in
  (render_advice final = TossUp <-> rating = 3.0) /\
  (render_advice final = FavorOver <-> 50 <= final /\ 3.5 <= rating) /\
  (render_advice final = FavorUnder <-> final < 50 /\ 3.5 <= rating).
Proof.
  simpl. rewrite rating_by_tier.
  unfold render_advice, rating_tier, strength_of.
  destruct (Qle_bool 55 final) eqn:E55;
  destruct (Qle_bool final 45) eqn:E45;
  destruct (Qle_bool 50 final) eqn:E50;
    decide_thresholds; try lra;
    match goal with
    | |- context [Qle_bool 20 ?s] =>
        destruct (Qle_bool 20 s) eqn:A20;
        destruct (Qle_bool 10 s) eqn:A10;
        destruct (Qle_bool 5 s) eqn:A5
    end;
    decide_thresholds; try lra;
    repeat split; intros; try discriminate; try reflexivity; try lra;
    repeat match goal with
    | H : _ /\ _ |- _ => destruct H
    end; try lra; try discriminate.
Qed.

Lemma rating_values (prob : value) :
  let rating := fst (NPBKBO.get_star_recommendation prob) in
  rating = 5.0 \/ rating = 4.0 \/ rating = 3.5 \/ rating = 3.0 \/
  rating = 0.0.
Proof.
  destruct prob as [p|]; cbv zeta; [| simpl; tauto].
  rewrite rating_by_tier. unfold rating_tier.
  destruct (Qle_bool 20 (strength_of p)); [tauto |].
  destruct (Qle_bool 10 (strength_of p)); [tauto |].
  destruct (Qle_bool 5 (strength_of p)); tauto.
Qed.

(** X12. The recommendation line of [display_results] carries a star
    bar of five glyphs for every rating that [get_star_recommendation]
    can return: five, four or three full stars, three and a half, or,
    for the fallback rating 0.0 of an input that is not a number, five
    empty stars. *)
Theorem star_bar_has_five_glyphs (prob : value) :
  let rating := fst (NPBKBO.get_star_recommendation prob) in
  let label := snd (NPBKBO.get_star_recommendation prob) in
  exists bar : string,
    recommendation_line prob = ("推薦: " ++ bar ++ " " ++ label)%string /\
    ((rating = 5.0 /\ bar = "★★★★★"%string) \/
     (rating = 4.0 /\ bar = "★★★★☆"%string) \/
     (rating = 3.5 /\ bar = "★★★½☆"%string) \/
     (rating = 3.0 /\ bar = "★★★☆☆"%string) \/
     (rating = 0.0 /\ bar = "☆☆☆☆☆"%string)).
Proof.
  cbv zeta. exists (star_bar (fst (NPBKBO.get_star_recommendation prob))).
  split; [reflexivity |].
  pose proof (rating_values prob) as H. cbv zeta in H.
  destruct H as [H|[H|[H|[H|H]]]]; rewrite H.
  - left. split; reflexivity.
  - right; left. split; reflexivity.
  - do 2 right; left. split; reflexivity.
  - do 3 right; left. split; reflexivity.
  - do 4 right. split; reflexivity.
Qed.

(** ** The console: [safe_input] and [input_team_data] *)

Lemma checks_passed (min_val max_val : option Q) (val : Q) :
  below min_val val = false -> above max_val val = false ->
  within min_val max_val val.
Proof.
  unfold below, above, within. intros B A. split; intros m ->.
  - apply gtb_false_iff in B. exact B.
  - apply gtb_false_iff in A. exact A.
Qed.

Section ConsoleProperties.
Variable strip : string -> string.
Variable py_float : string -> option Q.

Lemma safe_input_loop_returned (default min_val max_val : option Q)
    (ks : list key) (scr : list message) (v : Q) (c' : console) :
  safe_input_loop strip py_float default min_val max_val ks scr
    = Returned v c' ->
  exists (rejected : list string) (raw : string) (shown : list message),
    ks = map Line rejected ++ Line raw :: keys c' /\
    screen c' = scr ++ shown /\
    length shown = length rejected /\
    ((default = Some v /\ strip raw = ""%string) \/
     (py_float (strip raw) = Some v /\ within min_val max_val v)).
Proof.
  revert scr. induction ks as [|k ks IH]; intros scr E; simpl in E.
  - discriminate.
  - destruct k as [raw|]; [| discriminate].
    assert (Hrec : forall m,
      safe_input_loop strip py_float default min_val max_val ks
        (scr ++ [m]) = Returned v c' ->
      exists rejected raw0 shown,
        Line raw :: ks = map Line rejected ++ Line raw0 :: keys c' /\
        screen c' = scr ++ shown /\
        length shown = length rejected /\
        ((default = Some v /\ strip raw0 = ""%string) \/
         (py_float (strip raw0) = Some v /\ within min_val max_val v))).
    { intros m Em.
      destruct (IH _ Em) as (rej & raw0 & shown & K & S & L & V).
      exists (raw :: rej), raw0, (m :: shown).
      rewrite K, S, <- app_assoc. simpl. auto. }
    assert (Hparse :
      match py_float (strip raw) with
      | None =>
          safe_input_loop strip py_float default min_val max_val ks
            (scr ++ [NotANumber])
      | Some val =>
          if below min_val val then
            safe_input_loop strip py_float default min_val max_val ks
              (scr ++ [TooSmall (match min_val with
                                 | Some m => m
                                 | None => 0
                                 end)])
          else if above max_val val then
            safe_input_loop strip py_float default min_val max_val ks
              (scr ++ [TooLarge (match max_val with
                                 | Some m => m
                                 | None => 0
                                 end)])
          else Returned val (mkConsole ks scr)
      end = Returned v c' ->
      exists rejected raw0 shown,
        Line raw :: ks = map Line rejected ++ Line raw0 :: keys c' /\
        screen c' = scr ++ shown /\
        length shown = length rejected /\
        ((default = Some v /\ strip raw0 = ""%string) \/
         (py_float (strip raw0) = Some v /\ within min_val max_val v))).
    { destruct (py_float (strip raw)) as [val|] eqn:P; [| apply Hrec].
      destruct (below min_val val) eqn:B; [apply Hrec |].
      destruct (above max_val val) eqn:A; [apply Hrec |].
      intros R. inversion R; subst.
      exists [], raw, []. simpl. rewrite app_nil_r.
      repeat split; auto. right. split; [exact P |].
      now apply checks_passed. }
    destruct default as [d|]; [| exact (Hparse E)].
    destruct (String.eqb (strip raw) "") eqn:Q; [| exact (Hparse E)].
    inversion E; subst.
    exists [], raw, []. simpl. rewrite app_nil_r.
    repeat split; auto. left. split; [reflexivity |].
    now apply String.eqb_eq.
Qed.

Lemma safe_input_loop_stopped (default min_val max_val : option Q)
    (ks : list key) (scr : list message) :
  match safe_input_loop strip py_float default min_val max_val ks scr with
  | Returned _ _ => True
  | Stopped EOFError c' => keys c' = []
  | Stopped SystemExit c' => exists shown, screen c' = shown ++ [Cancelled]
  | Stopped KeyboardInterrupt _ => False
  | Diverges => False
  end.
Proof.
  revert scr. induction ks as [|k ks IH]; intros scr; simpl.
  - reflexivity.
  - destruct k as [raw|]; [| now exists scr].
    assert (Hparse :
      match
        match py_float (strip raw) with
        | None =>
            safe_input_loop strip py_float default min_val max_val ks
              (scr ++ [NotANumber])
        | Some val =>
            if below min_val val then
              safe_input_loop strip py_float default min_val max_val ks
                (scr ++ [TooSmall (match min_val with
                                   | Some m => m
                                   | None => 0
                                   end)])
            else if above max_val val then
              safe_input_loop strip py_float default min_val max_val ks
                (scr ++ [TooLarge (match max_val with
                                   | Some m => m
                                   | None => 0
                                   end)])
            else Returned val (mkConsole ks scr)
        end
      with
      | Returned _ _ => True
      | Stopped EOFError c' => keys c' = []
      | Stopped SystemExit c' =>
          exists shown, screen c' = shown ++ [Cancelled]
      | Stopped KeyboardInterrupt _ => False
      | Diverges => False
      end).
    { destruct (py_float (strip raw)) as [val|]; [| apply IH].
      destruct (below min_val val); [apply IH |].
      destruct (above max_val val); [apply IH | exact I]. }
    destruct default as [d|]; [| exact Hparse].
    destruct (String.eqb (strip raw) ""); [exact I | exact Hparse].
Qed.

(** X14. [safe_input] reads no further than the line it accepts: before
    it come only rejected lines, each answered by one message, and the
    rest of the input is left for the next call.  It never lets
    [ValueError] or [KeyboardInterrupt] out and never loops for ever: if
    it does not return, either the input has run out ([EOFError]) or an
    interrupt was answered by the cancel message and [sys.exit]. *)
Theorem safe_input_consumption (default min_val max_val : option Q)
    (c : console) :
  match safe_input strip py_float default min_val max_val c with
  | Returned v c' =>
      exists (rejected : list string) (raw : string) (shown : list message),
        keys c = map Line rejected ++ Line raw :: keys c' /\
        screen c' = screen c ++ shown /\
        length shown = length rejected
  | Stopped EOFError c' => keys c' = []
  | Stopped SystemExit c' => exists shown, screen c' = shown ++ [Cancelled]
  | Stopped KeyboardInterrupt _ => False
  | Diverges => False
  end.
Proof.
  unfold safe_input.
  pose proof (safe_input_loop_stopped default min_val max_val
                (keys c) (screen c)) as S.
  destruct (safe_input_loop strip py_float default min_val max_val
              (keys c) (screen c)) as [v c'| s c' |] eqn:E; try exact S.
  destruct (safe_input_loop_returned _ _ _ _ _ _ _ E)
    as (rej & raw & shown & K & Sc & L & _).
  exists rej, raw, shown. auto.
Qed.

End ConsoleProperties.

Lemma reads_trans (c1 c2 c3 : console) :
  reads c1 c2 -> reads c2 c3 -> reads c1 c3.
Proof.
  intros (p1 & N1 & K1) (p2 & N2 & K2). exists (p1 ++ p2). split.
  - destruct p1; [congruence | discriminate].
  - now rewrite K1, K2, app_assoc.
Qed.

Lemma reads_shorter (c c' : console) :
  reads c c' -> (length (keys c') < length (keys c))%nat.
Proof.
  intros (pre & N & K). rewrite K, length_app.
  destruct pre; [congruence | simpl; lia].
Qed.


Section TeamEntry.
Variable strip : string -> string.
Variable py_float : string -> option Q.





(** The input is still at its end after [EOFError], so the next turn
    raises [EOFError] again: the loop of [input_team_data] never ends
    there. *)
Lemma end_of_input_repeats (m : message) (c : console) :
  keys c = [] ->
  exists c',
    input_team_data_try strip py_float (say m c) = Stopped EOFError c' /\
    keys c' = [].
Proof.
  intros K. unfold input_team_data_try, safe_input, say; cbn [keys screen].
  rewrite K. simpl. eexists. split; reflexivity.
Qed.





End TeamEntry.


(** ** The console and the floats that are not numbers *)

Lemma checks_passed_x (min_val max_val : option Q) (val : xfloat) :
  below_x min_val val = false -> above_x max_val val = false ->
  val = NaN \/ within_x min_val max_val val.
Proof.
  unfold below_x, above_x, within_x. intros B A.
  destruct val as [q| | |]; [right | right | right | now left].
  - split; intros m ->; simpl in *.
    + apply gtb_false_iff in B. exact B.
    + apply gtb_false_iff in A. exact A.
  - split; intros m ->; simpl in *; [exact I | discriminate].
  - split; intros m ->; simpl in *; [discriminate | exact I].
Qed.

Lemma nonneg_entry_of_checks (v : xfloat) :
  below_x (Some 0) v = false -> nonneg_entry v.
Proof.
  unfold nonneg_entry. destruct v as [q| | |]; simpl; intros B.
  - right; right. exists q. split; [reflexivity |].
    now apply gtb_false_iff in B.
  - right; now left.
  - discriminate.
  - now left.
Qed.

Lemma unit_entry_of_checks (v : xfloat) :
  below_x (Some 0) v = false -> above_x (Some 1) v = false -> unit_entry v.
Proof.
  unfold unit_entry. destruct v as [q| | |]; simpl; intros B A;
    try discriminate.
  - right. exists q. split; [reflexivity |].
    apply gtb_false_iff in B. apply gtb_false_iff in A. split; assumption.
  - now left.
Qed.

Lemma percent_entry_of_checks (v : xfloat) :
  below_x (Some 0) v = false -> above_x (Some 100) v = false ->
  unit_entry (xdiv v 100).
Proof.
  unfold unit_entry. destruct v as [q| | |]; simpl; intros B A;
    try discriminate.
  - right. exists (q / 100). split; [reflexivity |].
    apply gtb_false_iff in B. apply gtb_false_iff in A.
    unfold Qdiv. change (/ 100) with (1 # 100). split; lra.
  - now left.
Qed.

Section ConsoleXProperties.
Variable strip : string -> string.
Variable py_float_x : string -> option xfloat.

Lemma safe_input_x_loop_returned (default min_val max_val : option Q)
    (ks : list key) (scr : list message) (v : xfloat) (c' : console) :
  safe_input_x_loop strip py_float_x default min_val max_val ks scr
    = Returned v c' ->
  exists (rejected : list string) (raw : string) (shown : list message),
    ks = map Line rejected ++ Line raw :: keys c' /\
    screen c' = scr ++ shown /\
    length shown = length rejected /\
    ((exists d, default = Some d /\ v = Finite d /\
                strip raw = ""%string) \/
     (py_float_x (strip raw) = Some v /\
      below_x min_val v = false /\ above_x max_val v = false)).
Proof.
  revert scr. induction ks as [|k ks IH]; intros scr E; simpl in E.
  - discriminate.
  - destruct k as [raw|]; [| discriminate].
    assert (Hrec : forall m,
      safe_input_x_loop strip py_float_x default min_val max_val ks
        (scr ++ [m]) = Returned v c' ->
      exists rejected raw0 shown,
        Line raw :: ks = map Line rejected ++ Line raw0 :: keys c' /\
        screen c' = scr ++ shown /\
        length shown = length rejected /\
        ((exists d, default = Some d /\ v = Finite d /\
                    strip raw0 = ""%string) \/
         (py_float_x (strip raw0) = Some v /\
          below_x min_val v = false /\ above_x max_val v = false))).
    { intros m Em.
      destruct (IH _ Em) as (rej & raw0 & shown & K & S & L & V).
      exists (raw :: rej), raw0, (m :: shown).
      rewrite K, S, <- app_assoc. simpl. auto. }
    assert (Hparse :
      match py_float_x (strip raw) with
      | None =>
          safe_input_x_loop strip py_float_x default min_val max_val ks
            (scr ++ [NotANumber])
      | Some val =>
          if below_x min_val val then
            safe_input_x_loop strip py_float_x default min_val max_val ks
              (scr ++ [TooSmall (match min_val with
                                 | Some m => m
                                 | None => 0
                                 end)])
          else if above_x max_val val then
            safe_input_x_loop strip py_float_x default min_val max_val ks
              (scr ++ [TooLarge (match max_val with
                                 | Some m => m
                                 | None => 0
                                 end)])
          else Returned val (mkConsole ks scr)
      end = Returned v c' ->
      exists rejected raw0 shown,
        Line raw :: ks = map Line rejected ++ Line raw0 :: keys c' /\
        screen c' = scr ++ shown /\
        length shown = length rejected /\
        ((exists d, default = Some d /\ v = Finite d /\
                    strip raw0 = ""%string) \/
         (py_float_x (strip raw0) = Some v /\
          below_x min_val v = false /\ above_x max_val v = false))).
    { destruct (py_float_x (strip raw)) as [val|] eqn:P; [| apply Hrec].
      destruct (below_x min_val val) eqn:B; [apply Hrec |].
      destruct (above_x max_val val) eqn:A; [apply Hrec |].
      intros R. inversion R; subst.
      exists [], raw, []. simpl. rewrite app_nil_r.
      repeat split; auto. }
    destruct default as [d|]; [| exact (Hparse E)].
    destruct (String.eqb (strip raw) "") eqn:Q; [| exact (Hparse E)].
    inversion E; subst.
    exists [], raw, []. simpl. rewrite app_nil_r.
    repeat split; auto. left. exists d. repeat split.
    now apply String.eqb_eq.
Qed.

Lemma safe_input_x_loop_stopped (default min_val max_val : option Q)
    (ks : list key) (scr : list message) :
  match safe_input_x_loop strip py_float_x default min_val max_val ks scr
  with
  | Returned _ _ => True
  | Stopped EOFError c' => keys c' = []
  | Stopped SystemExit c' => exists shown, screen c' = shown ++ [Cancelled]
  | Stopped KeyboardInterrupt _ => False
  | Diverges => False
  end.
Proof.
  revert scr. induction ks as [|k ks IH]; intros scr; simpl.
  - reflexivity.
  - destruct k as [raw|]; [| now exists scr].
    assert (Hparse :
      match
        match py_float_x (strip raw) with
        | None =>
            safe_input_x_loop strip py_float_x default min_val max_val ks
              (scr ++ [NotANumber])
        | Some val =>
            if below_x min_val val then
              safe_input_x_loop strip py_float_x default min_val max_val
                ks (scr ++ [TooSmall (match min_val with
                                      | Some m => m
                                      | None => 0
                                      end)])
            else if above_x max_val val then
              safe_input_x_loop strip py_float_x default min_val max_val
                ks (scr ++ [TooLarge (match max_val with
                                      | Some m => m
                                      | None => 0
                                      end)])
            else Returned val (mkConsole ks scr)
        end
      with
      | Returned _ _ => True
      | Stopped EOFError c' => keys c' = []
      | Stopped SystemExit c' =>
          exists shown, screen c' = shown ++ [Cancelled]
      | Stopped KeyboardInterrupt _ => False
      | Diverges => False
      end).
    { destruct (py_float_x (strip raw)) as [val|]; [| apply IH].
      destruct (below_x min_val val); [apply IH |].
      destruct (above_x max_val val); [apply IH | exact I]. }
    destruct default as [d|]; [| exact Hparse].
    destruct (String.eqb (strip raw) ""); [exact I | exact Hparse].
Qed.

(** X13. A value that [safe_input] returns is the default, returned for
    an empty line without any check, or [nan], which neither comparison
    rejects, or a float, possibly infinite, within the bounds that were
    given. *)
Theorem safe_input_returns_checked (default min_val max_val : option Q)
    (c c' : console) (v : xfloat) :
  safe_input_x strip py_float_x default min_val max_val c = Returned v c' ->
  (exists d, default = Some d /\ v = Finite d) \/
  v = NaN \/
  within_x min_val max_val v.
Proof.
  intros E.
  destruct (safe_input_x_loop_returned _ _ _ _ _ _ _ E)
    as (_ & _ & _ & _ & _ & _ & [(d & D & V & _)|(_ & B & A)]).
  - left. now exists d.
  - right. now apply checks_passed_x.
Qed.

(** X19. A line that [float] reads as [nan] is accepted by [safe_input]
    whatever the bounds are, and no message is printed: [nan < min_val]
    and [nan > max_val] are both false. *)
Theorem safe_input_accepts_nan (default min_val max_val : option Q)
    (raw : string) (rest : list key) (scr : list message) :
  py_float_x (strip raw) = Some NaN ->
  strip raw <> ""%string ->
  safe_input_x strip py_float_x default min_val max_val
    (mkConsole (Line raw :: rest) scr)
  = Returned NaN (mkConsole rest scr).
Proof.
  intros P N. unfold safe_input_x. cbn [keys screen safe_input_x_loop].
  apply String.eqb_neq in N. rewrite N, P.
  assert (B : below_x min_val NaN = false) by (now destruct min_val).
  assert (A : above_x max_val NaN = false) by (now destruct max_val).
  rewrite B, A. now destruct default.
Qed.

Lemma safe_input_x_reads (min_val max_val : option Q) (c c' : console)
    (v : xfloat) :
  safe_input_x strip py_float_x None min_val max_val c = Returned v c' ->
  reads c c' /\ below_x min_val v = false /\ above_x max_val v = false.
Proof.
  intros E.
  destruct (safe_input_x_loop_returned _ _ _ _ _ _ _ E)
    as (rej & raw & shown & K & _ & _ & [(d & D & _)|(_ & B & A)]);
    [discriminate |].
  split; [| now split].
  exists (map Line rej ++ [Line raw]). split.
  - destruct rej; discriminate.
  - now rewrite K, <- app_assoc.
Qed.

Lemma safe_input_x_stops (min_val max_val : option Q) (c c' : console)
    (s : signal) :
  safe_input_x strip py_float_x None min_val max_val c = Stopped s c' ->
  (s = EOFError /\ keys c' = []) \/ s = SystemExit.
Proof.
  intros E.
  pose proof (safe_input_x_loop_stopped None min_val max_val
                (keys c) (screen c)) as S.
  unfold safe_input_x in E. rewrite E in S.
  destruct s; [left; auto | contradiction | right; reflexivity].
Qed.

Ltac next_input_x :=
  match goal with
  | |- turn_law_x _ (obind (safe_input_x _ _ None ?mn ?mx ?c) _) =>
      let E := fresh "E" in
      let v := fresh "v" in
      let c' := fresh "c" in
      let s := fresh "s" in
      destruct (safe_input_x strip py_float_x None mn mx c)
        as [v c'|s c'|] eqn:E; cbn [obind];
      [ apply safe_input_x_reads in E; destruct E as (? & ? & ?)
      | apply safe_input_x_stops in E;
        destruct E as [[-> ?]| ->]; simpl; auto
      | exfalso;
        pose proof (safe_input_x_loop_stopped None mn mx
                      (keys c) (screen c)) as S;
        unfold safe_input_x in E; now rewrite E in S ]
  end.

Lemma input_team_data_x_try_law (c : console) :
  turn_law_x c (input_team_data_x_try strip py_float_x c).
Proof.
  unfold input_team_data_x_try.
  next_input_x. next_input_x. next_input_x. next_input_x.
  next_input_x. next_input_x. next_input_x. next_input_x.
  assert (R : reads c c7) by (repeat (eapply reads_trans; eauto)).
  assert (V : checked_entries (mkEntered v v0 v1 (xdiv v2 100) v3 v4 v5 v6)).
  { unfold checked_entries; cbn.
    repeat split;
      first [ now apply nonneg_entry_of_checks
            | now apply unit_entry_of_checks
            | now apply percent_entry_of_checks ]. }
  destruct (xltb (xmul v0 1.5) v) eqn:G.
  - unfold input, say; cbn [keys screen].
    destruct (keys c7) as [|[answer|] rest] eqn:K7; cbn [obind];
      simpl; auto.
    assert (R' : reads c (mkConsole rest
                            (screen c7 ++ [AverageWarningX v v0]))).
    { destruct R as (pre & N & K). exists (pre ++ [Line answer]). split.
      - destruct pre; discriminate.
      - cbn [keys]. now rewrite K, K7, <- app_assoc. }
    destruct (starts_with_y answer) eqn:Y; cbn [negb]; simpl.
    + split; [exact R' | exact V].
    + exact R'.
  - simpl. split; [exact R | exact V].
Qed.

Lemma input_team_data_x_loop_law (fuel : nat)
    (team_name time_period : string) (is_home : bool) (c : console) :
  (length (keys c) < fuel)%nat ->
  exists o,
    input_team_data_x_loop strip py_float_x fuel team_name time_period
      is_home c = Some o /\
    entry_law_x c o.
Proof.
  revert c. induction fuel as [|fuel IH]; intros c F; [lia |].
  cbn [input_team_data_x_loop].
  pose proof (input_team_data_x_try_law
                (say (TeamHeader team_name time_period is_home) c)) as T.
  destruct (input_team_data_x_try strip py_float_x
              (say (TeamHeader team_name time_period is_home) c))
    as [[team|] c'|s c'|]; cbn [turn_law_x] in T.
  - eexists. split; [reflexivity |]. exact T.
  - assert (T' : reads c c') by exact T.
    pose proof (reads_shorter _ _ T') as Sh.
    destruct (IH c' ltac:(lia)) as (o & E & L).
    exists o. split; [exact E |].
    destruct o as [team c''|s c''|]; cbn [entry_law_x] in *; auto.
    destruct L as (R & V).
    split; [eapply reads_trans; eauto | exact V].
  - destruct s; eexists; (split; [reflexivity |]); exact I.
  - contradiction.
Qed.

Lemma input_team_data_x_law (team_name time_period : string)
    (is_home : bool) (c : console) :
  exists o,
    input_team_data_x strip py_float_x team_name time_period is_home c
      = Some o /\
    entry_law_x c o.
Proof. apply input_team_data_x_loop_law. lia. Qed.

(** X15. [input_team_data] always comes to an end or loops at the end of
    the input, and every number of a team it returns is [nan] or within
    its range: averages and era not negative (possibly infinite),
    over-rate (entered in percent and divided by 100), batting average,
    on-base percentage and baa between 0 and 1. *)
Theorem entered_numbers_are_checked (team_name time_period : string)
    (is_home : bool) (c : console) :
  exists o,
    input_team_data_x strip py_float_x team_name time_period is_home c
      = Some o /\
    match o with
    | Returned e c' =>
        nonneg_entry (x_time_avg e) /\ nonneg_entry (x_base_avg e) /\
        nonneg_entry (x_allow e) /\ unit_entry (x_over_rate e) /\
        unit_entry (x_team_batting e) /\ unit_entry (x_team_obp e) /\
        nonneg_entry (x_era e) /\ unit_entry (x_baa e)
    | Stopped s _ => s <> EOFError
    | Diverges => True
    end.
Proof.
  destruct (input_team_data_x_law team_name time_period is_home c)
    as (o & E & L).
  exists o. split; [exact E |].
  destruct o as [e c'|s c'|]; cbn [entry_law_x] in L.
  - exact (proj2 L).
  - destruct s; [contradiction | discriminate | discriminate].
  - exact I.
Qed.

Lemma finite_entries_valid (e : entered) (t : TeamStat) :
  checked_entries e -> finite_team e = Some t -> valid_team t.
Proof.
  unfold checked_entries, finite_team.
  destruct e as [t0 b a o tb ob er ba]; cbn.
  intros (T & B & A & O & TB & OB & ER & BA) F.
  destruct t0 as [t0| | |]; try discriminate.
  destruct b as [b| | |]; try discriminate.
  destruct a as [a| | |]; try discriminate.
  destruct o as [o| | |]; try discriminate.
  destruct tb as [tb| | |]; try discriminate.
  destruct ob as [ob| | |]; try discriminate.
  destruct er as [er| | |]; try discriminate.
  destruct ba as [ba| | |]; try discriminate.
  inversion F; subst t. clear F.
  unfold nonneg_entry, unit_entry in *.
  repeat match goal with
  | H : _ \/ _ |- _ => destruct H as [H|H]; [discriminate |]
  | H : exists q, _ |- _ =>
      let q := fresh "q" in
      let E := fresh "E" in
      destruct H as (q & E & H); inversion E; subst q; clear E
  end.
  unfold valid_team, valid_pitcher; cbn. tauto.
Qed.

End ConsoleXProperties.

Lemma safe_input_returns_checked_witness :
  (exists d, None = Some d /\ NaN = Finite d) \/
  NaN = NaN \/
  within_x (Some 0) (Some 100) NaN.
Proof.
  exact (safe_input_returns_checked toy_strip toy_float_x
           None (Some 0) (Some 100)
           (mkConsole [Line "abc"; Line "250"; Line "nan"; Line "0.3"] [])
           (mkConsole [Line "0.3"] [NotANumber; TooLarge 100])
           NaN eq_refl).
Defined.

Lemma safe_input_accepts_nan_witness :
  safe_input_x toy_strip toy_float_x None (Some 0) (Some 1)
    (mkConsole [Line "nan"; Line "0.3"] [])
  = Returned NaN (mkConsole [Line "0.3"] []).
Proof.
  apply (safe_input_accepts_nan toy_strip toy_float_x
           None (Some 0) (Some 1) "nan" [Line "0.3"] []).
  - reflexivity.
  - discriminate.
Defined.

(** ** From the console to the scores *)

Lemma valid_baseline_nonneg (league : string) (t : TeamStat) :
  valid_team t -> 0 <= spec_baseline_score league t.
Proof.
  intros (Ht & Hb & _). now apply baseline_score_sign.
Qed.

Section Pipeline.
Variable strip : string -> string.
Variable py_float_x : string -> option xfloat.
Context {RS : RandomSource}.

(** X17. The sentinel does not arise from numbers entered at the
    console: for two teams entered through [input_team_data], home
    first, none of whose sixteen numbers is [nan] or infinite, the
    entries are within the ranges of the data model, both calls of
    [calculate_scores] in [main] return floats and print nothing, the
    full-mode scores are at least 0.1 and the baseline scores are not
    negative, and the analysis hands these scores on with the two model
    results. *)
Theorem entered_numbers_are_scored
    (home_name away_name time_period : string)
    (c c1 c2 : console) (home away : entered) (th ta : TeamStat)
    (league : string) (target : Q) (w : world) :
  input_team_data_x strip py_float_x home_name time_period true c
    = Some (Returned home c1) ->
  input_team_data_x strip py_float_x away_name time_period false c1
    = Some (Returned away c2) ->
  finite_team home = Some th ->
  finite_team away = Some ta ->
  valid_team th /\ valid_team ta /\
  exists fh fa bh ba : Q,
    NPBKBO.calculate_scores (dict_of th) (dict_of ta) league true w
      = (Ok (VFloat fh, VFloat fa), w) /\
    NPBKBO.calculate_scores (dict_of th) (dict_of ta) league false w
      = (Ok (VFloat bh, VFloat ba), w) /\
    0.1 <= fh /\ 0.1 <= fa /\ 0 <= bh /\ 0 <= ba /\
    exists full_results base_results w',
      NPBKBO.main_analysis (dict_of th) (dict_of ta) league target w
        = (Ok ((VFloat fh, VFloat fa, full_results),
               (VFloat bh, VFloat ba, base_results)), w').
Proof.
  intros Eh Ea Fh Fa.
  destruct (input_team_data_x_law strip py_float_x home_name time_period
              true c) as (oh & Eh' & Lh).
  rewrite Eh in Eh'. inversion Eh'; subst oh. cbn [entry_law_x] in Lh.
  destruct (input_team_data_x_law strip py_float_x away_name time_period
              false c1) as (oa & Ea' & La).
  rewrite Ea in Ea'. inversion Ea'; subst oa. cbn [entry_law_x] in La.
  pose proof (finite_entries_valid _ _ (proj2 Lh) Fh) as Vh.
  pose proof (finite_entries_valid _ _ (proj2 La) Fa) as Va.
  split; [exact Vh |]. split; [exact Va |].
  pose proof (calculate_scores_returns _ _ _ _ w _ _
                (calculate_scores_body_full th ta league)) as F.
  do 4 eexists.
  split; [exact F |].
  split; [apply calculate_scores_returns, calculate_scores_body_baseline |].
  split; [apply Q.le_max_l |]. split; [apply Q.le_max_l |].
  split; [apply (valid_baseline_nonneg league th Vh) |].
  split; [apply (valid_baseline_nonneg league ta Va) |].
  unfold NPBKBO.main_analysis, bind. rewrite F. cbv beta iota.
  cbn [fst snd].
  match goal with
  | |- context [NPBKBO.run_probability_models ?x ?y target league w] =>
      destruct (run_probability_models_total x y target league w)
        as (r1 & w1 & E1 & _)
  end.
  rewrite E1.
  rewrite (calculate_scores_returns _ _ _ _ w1 _ _
             (calculate_scores_body_baseline th ta league)).
  cbn [fst snd].
  match goal with
  | |- context [NPBKBO.run_probability_models ?x ?y target league w1] =>
      destruct (run_probability_models_total x y target league w1)
        as (r2 & w2 & E2 & _)
  end.
  rewrite E2. unfold ret. eexists; eexists; eexists. reflexivity.
Qed.

End Pipeline.

Lemma entered_numbers_are_scored_witness :
  valid_team (entered_team 4.0 4.2 3.8 55 0.270 0.340 4.0 0.250) /\
  valid_team (entered_team 7.0 4.0 3.8 55 0.270 0.340 4.0 0.250) /\
  exists fh fa bh ba : Q,
    NPBKBO.calculate_scores (RS := ToySource)
      (dict_of (entered_team 4.0 4.2 3.8 55 0.270 0.340 4.0 0.250))
      (dict_of (entered_team 7.0 4.0 3.8 55 0.270 0.340 4.0 0.250))
      "NPB" true toy_world
      = (Ok (VFloat fh, VFloat fa), toy_world) /\
    0.1 <= fh /\ 0.1 <= fa /\ 0 <= bh /\ 0 <= ba.
Proof.
  destruct (entered_numbers_are_scored toy_strip toy_float_x
              (RS := ToySource)
              "Tigers" "Giants" "日間"
              (mkConsole (team_lines ++ hot_team_lines "y") [])
              (mkConsole (hot_team_lines "y")
                 [TeamHeader "Tigers" "日間" true])
              (mkConsole []
                 [TeamHeader "Tigers" "日間" true;
                  TeamHeader "Giants" "日間" false;
                  AverageWarningX (Finite 7.0) (Finite 4.0)])
              _ _ _ _ "NPB" 8.5 toy_world eq_refl eq_refl eq_refl eq_refl)
    as (Vh & Va & fh & fa & bh & ba & F & _ & H1 & H2 & H3 & H4 & _).
  split; [exact Vh |]. split; [exact Va |].
  exists fh, fa, bh, ba. auto.
Defined.

(** ** From valid teams to a result, without a failure *)

Lemma unopposed_score_limit (league : string) (t : TeamStat) :
  valid_team t -> moderate_team t ->
  unopposed_score (spec_league_multiplier league) t <= AVERAGE_LIMIT * 5.
Proof.
  intros (Ht & Hb & Ha & [Ho1 Ho2] & [Htb1 Htb2] & [Hob1 Hob2] & _)
         (Mt & Mb & Ma).
  unfold unopposed_score.
  apply Qle_trans
    with (AVERAGE_LIMIT * (105 # 100) * 1 * (4 + (76 # 100)));
    [| discriminate].
  assert (Hlf : 0 <= spec_league_multiplier league <= 105 # 100).
  { unfold spec_league_multiplier.
    destruct (String.eqb league "NPB"); split; discriminate. }
  apply Qmult_le_compat_nonneg.
  - split.
    + apply Qmult_nonneg; [apply Qmult_nonneg |]; lra.
    + apply Qmult_le_compat_nonneg.
      * split; [apply Qmult_nonneg; lra |].
        apply Qmult_le_compat_nonneg; split; lra.
      * split; lra.
  - change (Qmax 0.001 0.270) with 0.270.
    change (Qmax 0.001 0.340) with 0.340.
    unfold Qdiv.
    change (/ 0.270) with (1000 # 270).
    change (/ 0.340) with (1000 # 340).
    split; lra.
Qed.

Lemma full_score_in_domain (league : string) (t : TeamStat) (opp : Pitcher) :
  valid_team t -> moderate_team t ->
  0 <= Qmax 0.1 (raw_score (spec_league_multiplier league) t opp)
    <= POISSON_LAM_MAX.
Proof.
  intros V M. split.
  - apply Qle_trans with 0.1; [discriminate | apply Q.le_max_l].
  - apply Q.max_lub; [discriminate |].
    rewrite raw_score_split.
    pose proof (unopposed_score_nonneg (spec_league_multiplier league) t
                  (Qlt_le_weak _ _ (league_factor_pos league)) V) as K.
    pose proof (unopposed_score_limit league t V M) as L.
    destruct (pitcher_multiplier_bounds (p_era opp) (p_baa opp)) as [_ U].
    apply Qle_trans with (AVERAGE_LIMIT * 5 * 10); [| discriminate].
    apply Qmult_le_compat_nonneg; split; try assumption.
    apply Qlt_le_weak, pitcher_reciprocal_pos.
Qed.

Lemma baseline_score_in_domain (league : string) (t : TeamStat) :
  valid_team t -> moderate_team t ->
  0 <= spec_baseline_score league t <= POISSON_LAM_MAX.
Proof.
  intros V (Mt & Mb & _). split; [now apply valid_baseline_nonneg |].
  destruct V as (Ht & Hb & _).
  unfold spec_baseline_score, spec_league_multiplier, AVERAGE_LIMIT,
    POISSON_LAM_MAX in *.
  destruct (String.eqb league "NPB"); lra.
Qed.

Section EndToEnd.
Context {RS : RandomSource}.

(** X18. No failure from valid input: with library samplers that return
    on their documented domain, two valid teams whose averages are at
    most ten to the sixteenth always get a result.  The form's click
    handler returns the two scores and the four probabilities instead of
    raising, and the console analysis returns float scores with two
    model results that come from the draws, and prints no error line. *)
Theorem valid_teams_get_a_result (home away : TeamStat) (league : string)
    (target : Q) (w : world) :
  library_domain RS ->
  valid_team home -> valid_team away ->
  moderate_team home -> moderate_team away ->
  (exists hs as_ models w',
     App.on_click (dict_of home) (dict_of away) target league w
       = (Ok (hs, as_, models), w')) /\
  (exists fh fa bh ba d1 d2 w',
     NPBKBO.main_analysis (dict_of home) (dict_of away) league target w
       = (Ok ((VFloat fh, VFloat fa, models_of_totals league target d1),
              (VFloat bh, VFloat ba, models_of_totals league target d2)),
          w') /\
     stdout w' = stdout w).
Proof.
  intros D Vh Va Mh Ma.
  pose proof (full_score_in_domain league home (ts_pitcher away) Vh Mh)
    as Fh.
  pose proof (full_score_in_domain league away (ts_pitcher home) Va Ma)
    as Fa.
  pose proof (baseline_score_in_domain league home Vh Mh) as Bh.
  pose proof (baseline_score_in_domain league away Va Ma) as Ba.
  split.
  - unfold App.on_click, bind, lift.
    fold (spec_league_multiplier league).
    rewrite !app_weighted_score_same.
    change (pitcher (dict_of away)) with (pitcher_of (ts_pitcher away)).
    change (pitcher (dict_of home)) with (pitcher_of (ts_pitcher home)).
    rewrite !weighted_score_numeric. cbv beta iota.
    pose proof (draw_totals_returns _ _ league w D Fh Fa) as R.
    rewrite run_models_by_totals.
    destruct (draw_totals _ _ league w) as [[d|e] w'];
      [| discriminate R].
    cbv beta iota zeta. unfold ret. do 4 eexists. reflexivity.
  - unfold NPBKBO.main_analysis, bind.
    rewrite (calculate_scores_returns _ _ _ _ w _ _
               (calculate_scores_body_full home away league)).
    cbv beta iota. cbn [fst snd].
    pose proof (draw_totals_returns _ _ league w D Fh Fa) as R1.
    pose proof (draw_totals_stdout
                  (Qmax 0.1 (raw_score (spec_league_multiplier league)
                               home (ts_pitcher away)))
                  (Qmax 0.1 (raw_score (spec_league_multiplier league)
                               away (ts_pitcher home)))
                  league w) as S1.
    destruct (draw_totals _ _ league w) as [[d1|e] w1] eqn:E1;
      [| discriminate R1].
    rewrite (run_on_totals _ _ target _ _ _ _ E1). cbv beta iota.
    rewrite (calculate_scores_returns _ _ _ _ w1 _ _
               (calculate_scores_body_baseline home away league)).
    cbv beta iota. cbn [fst snd].
    fold (spec_baseline_score league home).
    fold (spec_baseline_score league away).
    pose proof (draw_totals_returns _ _ league w1 D Bh Ba) as R2.
    pose proof (draw_totals_stdout (spec_baseline_score league home)
                  (spec_baseline_score league away) league w1) as S2.
    destruct (draw_totals _ _ league w1) as [[d2|e] w2] eqn:E2;
      [| discriminate R2].
    rewrite (run_on_totals _ _ target _ _ _ _ E2). unfold ret.
    do 7 eexists. split; [reflexivity |].
    simpl in S1, S2. now rewrite S2, S1.
Qed.

End EndToEnd.

Lemma sample_team_moderate : moderate_team sample_team.
Proof. unfold moderate_team, sample_team; simpl. repeat split; discriminate. Qed.

Lemma valid_teams_get_a_result_witness :
  exists hs as_ models w',
    App.on_click (RS := ToySource)
      (dict_of sample_team) (dict_of sample_team) 8.5 "NPB" toy_world
      = (Ok (hs, as_, models), w').
Proof.
  exact (proj1 (valid_teams_get_a_result (RS := ToySource)
                  sample_team sample_team "NPB" 8.5 toy_world
                  toy_source_domain sample_team_valid sample_team_valid
                  sample_team_moderate sample_team_moderate)).
Defined.
